(** * Sign-language letters: the stream-to-decision pipeline

    A shallow embedding of the browser client (the second script of
    [part_001]: [l2], [sendPayload], [appendLetter], [handlePrediction],
    [onResults] and the [setInterval] callback), of the earlier page (the
    first script of [part_001], which sends the latest frame at every
    interval and only logs the answer) and of the notebook ([part_002]:
    the function [one_image_to_vector] and the cell that runs it on a
    batch of images).

    Numbers are IEEE 754 values, modelled by the [spec_float] type of the
    standard library with its correctly rounded operations: binary64
    ([prec = 53], [emax = 1024]) for JavaScript numbers, binary32
    ([prec = 24], [emax = 128]) for the [np.float32] array of the notebook.
    Both formats have infinities and a NaN, so what the code does on
    non-finite input is part of the model. *)

From Stdlib Require Import ZArith QArith List String Ascii Bool Lia PeanoNat.
From Stdlib Require Import Floats.SpecFloat.
Import ListNotations.

Local Open Scope string_scope.
Local Open Scope Z_scope.

(** ** IEEE values *)

Module IEEE.

Definition is_nan (x : spec_float) : bool :=
  match x with S754_nan => true | _ => false end.

(** Finite: a zero or a finite non-zero value. *)
Definition is_finite (x : spec_float) : bool :=
  match x with S754_zero _ | S754_finite _ _ _ => true | _ => false end.

Definition is_zero (x : spec_float) : bool :=
  match x with S754_zero _ => true | _ => false end.

(** Non-zero, finite or infinite, of sign [s]. *)
Definition signed_nonzero (s : bool) (x : spec_float) : bool :=
  match x with
  | S754_finite s' _ _ | S754_infinity s' => Bool.eqb s s'
  | _ => false
  end.

(** [+0] or NaN. *)
Definition zero_or_nan (x : spec_float) : bool :=
  match x with S754_zero false | S754_nan => true | _ => false end.

(** The conversion of an integer, as the primitive conversion of the
    standard library is specified: the integer rounded to the format. *)
Definition of_Z (prec emax : Z) (n : Z) : spec_float :=
  binary_normalize prec emax n 0 false.

End IEEE.

(** ** The browser client ([part_001], second script) *)

Module Client.

(** JavaScript numbers: binary64. *)
Definition num := spec_float.
Definition add : num -> num -> num := SFadd 53 1024.
Definition sub : num -> num -> num := SFsub 53 1024.
Definition mul : num -> num -> num := SFmul 53 1024.
Definition div : num -> num -> num := SFdiv 53 1024.
Definition sqrt : num -> num := SFsqrt 53 1024.
(** [a > b] and [a >= b]: false as soon as one side is NaN. *)
Definition gt (a b : num) : bool := SFltb b a.
Definition ge (a b : num) : bool := SFleb b a.
Definition of_nat (n : nat) : num := IEEE.of_Z 53 1024 (Z.of_nat n).

Definition Infinity : num := S754_infinity false.
Definition NaN : num := S754_nan.
Definition zero : num := S754_zero false.

(** [const THRESHOLD = 0.01]: the double nearest to 1/100,
    5764607523034235 * 2^-59. *)
Definition THRESHOLD : num := S754_finite false 5764607523034235 (-59).
(** [const CONF_THRESHOLD = 0.75]: 3 * 2^-2, exact. *)
Definition CONF_THRESHOLD : num := S754_finite false 6755399441055744 (-53).
(** [const DEBOUNCE_MS = 2000]. Times are [Date.now()] values, integers far
    below 2^53, on which JavaScript arithmetic is exact: they are modelled
    in [Z]. *)
Definition DEBOUNCE_MS : Z := 2000.

(** A MediaPipe landmark [{x, y, z}]. *)
Record Landmark := { lx : num; ly : num; lz : num }.

(** [const flatten = lms => lms.flatMap(p => [p.x, p.y, p.z])] *)
Definition flatten (lms : list Landmark) : list num :=
  flat_map (fun p => [lx p; ly p; lz p]) lms.

(** The loop of [l2], run once the two lengths are known to be equal:
    [const d = a[i] - b[i]; sum += d * d]. *)
Definition l2_sum (a b : list num) : num :=
  fold_left (fun sum ab => let d := sub (fst ab) (snd ab) in add sum (mul d d))
            (combine a b) zero.

(** [l2(a, b)]; [None] is [null]. An array, even empty, is truthy. *)
Definition l2 (a b : option (list num)) : num :=
  match a, b with
  | Some a, Some b =>
      if negb (Nat.eqb (List.length a) (List.length b)) then Infinity
      else sqrt (div (l2_sum a b) (of_nat (List.length a)))
  | _, _ => Infinity
  end.

(** The test of the periodic callback, [delta > THRESHOLD], for a frame
    that is present. [shouldSubmit_at] has the threshold as a parameter. *)
Definition shouldSubmit_at (threshold : num) (current : list num)
    (lastSent : option (list num)) : bool :=
  gt (l2 (Some current) lastSent) threshold.

Definition shouldSubmit : list num -> option (list num) -> bool :=
  shouldSubmit_at THRESHOLD.

(** *** The text buffer *)

(** [s.slice(0, -1)]: all of [s] but its last character ([""] for [""]). *)
Definition slice_0_m1 (s : string) : string :=
  String.substring 0 (String.length s - 1) s.

(** *** The two fields of a response *)

(** What the response body holds in its field [prediction]: a string, or
    a JSON value of another type. A number, an array or an object comes
    with the text that JavaScript converts it to, which the model does not
    compute. A field that is missing ([undefined]) is [None]. *)
Inductive Prediction :=
  | Label (s : string)
  | PNull
  | PBool (b : bool)
  | PNumber (x : num) (text : string)
  | PObject (text : string).

(** What the response body holds in its field [confidence]: a number,
    [null], or a boolean, a string, an array or an object, which comes
    with the number that JavaScript converts it to in a comparison (1 for
    [true], 0.9 for the string ["0.9"]). A field that is missing is
    [None]. *)
Inductive Confidence :=
  | Number (x : num)
  | CNull
  | NotANumber (as_number : num).

(** The text of a value in a string concatenation. *)
Definition to_text (p : Prediction) : string :=
  match p with
  | Label s => s
  | PNull => "null"
  | PBool true => "true"
  | PBool false => "false"
  | PNumber _ text => text
  | PObject text => text
  end.

(** [appendLetter(letter)], as a function of [typed.textContent]. Only a
    string is [=== 'space'] or [=== 'del']. *)
Definition appendLetter (letter : Prediction) (text : string) : string :=
  match letter with
  | Label s =>
      if String.eqb s "space" then text ++ " "
      else if String.eqb s "del" then slice_0_m1 text
      else text ++ s
  | _ => text ++ to_text letter
  end.

(** *** The state of the page *)

(** What the page last wrote to [logArea]; the clock text is left out. *)
Inductive LogLine :=
  | LogEmpty
  | LogAccepted (prediction : Prediction) (confidence : num)
  | LogLowConfidence (prediction : option Prediction) (confidence : option num)
  | LogError (message : string).

(** The [let] variables of the script, the text of [typed], the calls of
    [sendPayload] that are suspended at [await fetch(...)], oldest first,
    each with its argument [flat], and the bodies of all the requests that
    [fetch] has sent to the backend so far, oldest first. *)
Record State := mkState {
  lastFrameLandmarks : option (list num);
  lastSentLandmarks : option (list num);
  lastAccepted : option Prediction;
  lastAcceptTime : Z;
  typed : string;
  logArea : LogLine;
  inflight : list (list num);
  sent : list (list num)
}.

Definition initial : State :=
  {| lastFrameLandmarks := None; lastSentLandmarks := None;
     lastAccepted := None; lastAcceptTime := 0;
     typed := ""; logArea := LogEmpty; inflight := []; sent := [] |}.

(** *** handlePrediction *)

(** Which branch [handlePrediction] took. *)
Inductive Reason := LowConfidence | Duplicate.
Inductive Decision := Commit (label : Prediction) | Reject (reason : Reason).

(** The number that [confidence >= CONF_THRESHOLD] compares: [null] is 0,
    a missing field is NaN. *)
Definition to_number (confidence : option Confidence) : num :=
  match confidence with
  | Some (Number x) => x
  | Some CNull => zero
  | Some (NotANumber n) => n
  | None => NaN
  end.

(** [confidence >= CONF_THRESHOLD] *)
Definition confident (confidence : option Confidence) : bool :=
  ge (to_number confidence) CONF_THRESHOLD.

(** The prediction when it is truthy: a string that is not empty, [true],
    a number other than 0 and NaN, an array or an object. *)
Definition truthy (prediction : option Prediction) : option Prediction :=
  match prediction with
  | Some (Label s) => if String.eqb s "" then None else prediction
  | Some (PBool true) => prediction
  | Some (PNumber x _) =>
      if IEEE.is_zero x || IEEE.is_nan x then None else prediction
  | Some (PObject _) => prediction
  | Some PNull | Some (PBool false) | None => None
  end.

(** [p === q]: the same type and the same value; an array or an object of
    a response is a new one, identical to no other. *)
Definition strict_equal (p q : Prediction) : bool :=
  match p, q with
  | Label s, Label t => String.eqb s t
  | PNull, PNull => true
  | PBool a, PBool b => Bool.eqb a b
  | PNumber x _, PNumber y _ => SFeqb x y
  | _, _ => false
  end.

(** [prediction !== lastAccepted]; [None] is [null]. *)
Definition differs (prediction : Prediction) (last : option Prediction) : bool :=
  match last with
  | Some l => negb (strict_equal prediction l)
  | None => negb (strict_equal prediction PNull)
  end.

(** Whether the line that writes the log throws: [toFixed] is a method of
    numbers only, and [?.] guards [null] and a missing field only. *)
Definition toFixed_throws (confidence : option Confidence) : bool :=
  match confidence with
  | Some (NotANumber _) => true
  | _ => false
  end.

(** The log line of the first branch, written unless [toFixed] throws. *)
Definition log_accepted (prediction : Prediction)
    (confidence : option Confidence) (old : LogLine) : LogLine :=
  match confidence with
  | Some (Number c) => LogAccepted prediction c
  | _ => old
  end.

(** The log line of the second branch. *)
Definition log_low (prediction : option Prediction)
    (confidence : option Confidence) (old : LogLine) : LogLine :=
  match confidence with
  | Some (Number c) => LogLowConfidence prediction (Some c)
  | Some (NotANumber _) => old
  | Some CNull | None => LogLowConfidence prediction None
  end.

(** [handlePrediction(prediction, confidence)]; [now] is what [Date.now()]
    returns in it. The decision names the branch taken; the state is the
    one the function leaves, when it returns and when its last line throws
    ([toFixed_throws]). *)
Definition handlePrediction (prediction : option Prediction)
    (confidence : option Confidence) (now : Z) (st : State) : Decision * State :=
  match confident confidence, truthy prediction with
  | true, Some p =>
      if differs p (lastAccepted st) || (DEBOUNCE_MS <? now - lastAcceptTime st)
      then (Commit p,
            {| lastFrameLandmarks := lastFrameLandmarks st;
               lastSentLandmarks := lastSentLandmarks st;
               lastAccepted := Some p;
               lastAcceptTime := now;
               typed := appendLetter p (typed st);
               logArea := log_accepted p confidence (logArea st);
               inflight := inflight st;
               sent := sent st |})
      else (Reject Duplicate,
            {| lastFrameLandmarks := lastFrameLandmarks st;
               lastSentLandmarks := lastSentLandmarks st;
               lastAccepted := lastAccepted st;
               lastAcceptTime := lastAcceptTime st;
               typed := typed st;
               logArea := log_accepted p confidence (logArea st);
               inflight := inflight st;
               sent := sent st |})
  | _, _ =>
      (Reject LowConfidence,
       {| lastFrameLandmarks := lastFrameLandmarks st;
          lastSentLandmarks := lastSentLandmarks st;
          lastAccepted := lastAccepted st;
          lastAcceptTime := lastAcceptTime st;
          typed := typed st;
          logArea := log_low prediction confidence (logArea st);
          inflight := inflight st;
          sent := sent st |})
  end.

(** *** sendPayload *)

(** How a request ends: [fetch] rejects (network failure, aborted or timed
    out request); the body is not JSON or is [null], so that [res.json()]
    or the destructuring throws; or a body is read, at time [now], and its
    two fields are taken, whatever their types. An HTTP error status with
    a JSON body is of the third kind: [fetch] does not reject on it. *)
Inductive Outcome :=
  | FetchRejected (message : string)
  | BodyRejected (message : string)
  | Body (prediction : option Prediction) (confidence : option Confidence)
         (now : Z).

(** [sendPayload(flat)] up to its first [await]: the request is sent. *)
Definition sendPayload_call (flat : list num) (st : State) : State :=
  {| lastFrameLandmarks := lastFrameLandmarks st;
     lastSentLandmarks := lastSentLandmarks st;
     lastAccepted := lastAccepted st;
     lastAcceptTime := lastAcceptTime st;
     typed := typed st;
     logArea := logArea st;
     inflight := (inflight st ++ [flat])%list;
     sent := (sent st ++ [flat])%list |}.

Definition set_logArea (l : LogLine) (st : State) : State :=
  {| lastFrameLandmarks := lastFrameLandmarks st;
     lastSentLandmarks := lastSentLandmarks st;
     lastAccepted := lastAccepted st;
     lastAcceptTime := lastAcceptTime st;
     typed := typed st;
     logArea := l;
     inflight := inflight st;
     sent := sent st |}.

Definition set_lastSentLandmarks (flat : list num) (st : State) : State :=
  {| lastFrameLandmarks := lastFrameLandmarks st;
     lastSentLandmarks := Some flat;
     lastAccepted := lastAccepted st;
     lastAcceptTime := lastAcceptTime st;
     typed := typed st;
     logArea := logArea st;
     inflight := inflight st;
     sent := sent st |}.

(** The rest of [sendPayload(flat)], run when its request ends: the [try]
    block after the [await]s, or the [catch] block. When [handlePrediction]
    throws, what it did stays done, the assignment to [lastSentLandmarks]
    is skipped and the [catch] block logs the error. *)
Definition sendPayload_resume (flat : list num) (o : Outcome) (st : State)
    : State :=
  match o with
  | Body prediction confidence now =>
      let st' := snd (handlePrediction prediction confidence now st) in
      if toFixed_throws confidence
      then set_logArea (LogError "confidence.toFixed is not a function") st'
      else set_lastSentLandmarks flat st'
  | FetchRejected message | BodyRejected message =>
      set_logArea (LogError message) st
  end.

(** *** The callbacks *)

(** [onResults(res)]: [res.multiHandLandmarks] is missing ([None]) or a
    list of hands. The drawing is left out. *)
Definition onResults (multiHandLandmarks : option (list (list Landmark)))
    (st : State) : State :=
  {| lastFrameLandmarks :=
       match multiHandLandmarks with
       | Some (hand :: _) => Some (flatten hand)
       | _ => None
       end;
     lastSentLandmarks := lastSentLandmarks st;
     lastAccepted := lastAccepted st;
     lastAcceptTime := lastAcceptTime st;
     typed := typed st;
     logArea := logArea st;
     inflight := inflight st;
     sent := sent st |}.

(** The callback of [setInterval]. *)
Definition tick (st : State) : State :=
  match lastFrameLandmarks st with
  | None => st
  | Some current =>
      if gt (l2 (Some current) (lastSentLandmarks st)) THRESHOLD
      then sendPayload_call current st
      else st
  end.

(** *** The event loop *)

(** [remove_nth i l]: [l] without its element of index [i]. *)
Fixpoint remove_nth {A} (i : nat) (l : list A) : list A :=
  match i, l with
  | _, [] => []
  | O, _ :: t => t
  | S j, h :: t => h :: remove_nth j t
  end.

(** What the event loop runs: a MediaPipe result, a timer tick, or the end
    of the request of index [i] among those in flight. *)
Inductive Event :=
  | Results (multiHandLandmarks : option (list (list Landmark)))
  | Tick
  | Settle (i : nat) (o : Outcome).

Definition step (st : State) (e : Event) : State :=
  match e with
  | Results r => onResults r st
  | Tick => tick st
  | Settle i o =>
      match nth_error (inflight st) i with
      | Some flat =>
          sendPayload_resume flat o
            {| lastFrameLandmarks := lastFrameLandmarks st;
               lastSentLandmarks := lastSentLandmarks st;
               lastAccepted := lastAccepted st;
               lastAcceptTime := lastAcceptTime st;
               typed := typed st;
               logArea := logArea st;
               inflight := remove_nth i (inflight st);
               sent := sent st |}
      | None => st
      end
  end.

Definition run (st : State) (es : list Event) : State := fold_left step es st.

End Client.

(** ** The notebook ([part_002]): [one_image_to_vector] *)

Module Notebook.

(** The array [lm] has [dtype=np.float32]: binary32. MediaPipe stores a
    landmark's coordinates as 32-bit floats, so building the array rounds
    nothing; [tolist()] and [float(...)] widen to binary64 exactly, and the
    result is given here by its binary32 values. *)
Definition f32 := spec_float.
Definition add : f32 -> f32 -> f32 := SFadd 24 128.
Definition sub : f32 -> f32 -> f32 := SFsub 24 128.
Definition mul : f32 -> f32 -> f32 := SFmul 24 128.
Definition div : f32 -> f32 -> f32 := SFdiv 24 128.
Definition sqrt : f32 -> f32 := SFsqrt 24 128.
Definition lt (a b : f32) : bool := SFltb a b.

Definition NaN : f32 := S754_nan.
Definition zero : f32 := S754_zero false.
Definition one : f32 := S754_finite false 8388608 (-23).

(** A landmark of [lm_res.multi_hand_landmarks[0].landmark]. *)
Record Landmark := { x : f32; y : f32; z : f32 }.

(** What the function reads of its image file: the name of the parent
    directory, whether [cv2.imread] returns an image, and what
    [MP_HANDS.process] finds in it ([[]] for [None]). *)
Record Image := {
  parent_name : string;
  readable : bool;
  multi_hand_landmarks : list (list Landmark)
}.

(** The second component of the returned pair: a list of floats or a
    message; [IndexError] is the exception of an index out of range. *)
Inductive Result :=
  | Vector (v : list f32)
  | Message (reason : string)
  | IndexError.

(** [np.maximum] and [np.minimum], which [np.max], [np.min] and [np.ptp]
    reduce with: a NaN operand gives NaN. *)
Definition maximum (a b : f32) : f32 :=
  if IEEE.is_nan a then a else if IEEE.is_nan b then b
  else if lt a b then b else a.

Definition minimum (a b : f32) : f32 :=
  if IEEE.is_nan a then a else if IEEE.is_nan b then b
  else if lt b a then b else a.

(** A reduction of a non-empty array. *)
Definition reduce (f : f32 -> f32 -> f32) (l : list f32) : f32 :=
  match l with
  | [] => NaN
  | h :: t => fold_left f t h
  end.

Definition np_max : list f32 -> f32 := reduce maximum.
Definition np_min : list f32 -> f32 := reduce minimum.

(** [[[p.x, p.y, p.z] for p in ...]] *)
Definition to_array (hand : list Landmark) : list (list f32) :=
  map (fun p => [x p; y p; z p]) hand.

(** [lm -= row], broadcast over the rows. *)
Definition sub_row (lm : list (list f32)) (row : list f32) : list (list f32) :=
  map (fun r => map (fun ab => sub (fst ab) (snd ab)) (combine r row)) lm.

Definition column (j : nat) (lm : list (list f32)) : list f32 :=
  map (fun r => nth j r NaN) lm.

(** [np.ptp(lm, axis=0)]: per column, maximum minus minimum. *)
Definition ptp_axis0 (lm : list (list f32)) : list f32 :=
  map (fun j => sub (np_max (column j lm)) (np_min (column j lm)))
      [0%nat; 1%nat; 2%nat].

(** [np.max(np.ptp(lm, axis=0))] *)
Definition peak_to_peak (lm : list (list f32)) : f32 := np_max (ptp_axis0 lm).

(** [s or 1.0]: a float is falsy when it is a zero; NaN is truthy. *)
Definition or_one (s : f32) : f32 := if IEEE.is_zero s then one else s.

(** [lm /= scale] *)
Definition div_all (lm : list (list f32)) (scale : f32) : list (list f32) :=
  map (map (fun a => div a scale)) lm.

(** A binary64 value rounded to binary32, as a C cast from [double] to
    [float] does. *)
Definition to_f32 (a : spec_float) : f32 :=
  match a with
  | S754_finite s m e => binary_round 24 128 s m e
  | _ => a
  end.

(** [u.dot(v)] for two binary32 vectors, as the BLAS routine that numpy
    calls computes it for a short vector: each product is a binary32
    product, the products are added in a binary64 accumulator that starts
    at 0, and the sum is rounded to binary32. *)
Definition dot (u v : list f32) : f32 :=
  to_f32 (fold_left (fun s ab => SFadd 53 1024 s (mul (fst ab) (snd ab)))
                    (combine u v) zero).

(** [np.linalg.norm(v)]: [sqrt(v.dot(v))], the square root in binary32. *)
Definition norm (v : list f32) : f32 := sqrt (dot v v).

Definition tip_ids : list nat := [4; 8; 12; 16; 20]%nat.

(** [[f(lm[i]) for i in ids]]; an index out of range raises. *)
Fixpoint rows_at (lm : list (list f32)) (ids : list nat)
    : option (list (list f32)) :=
  match ids with
  | [] => Some []
  | i :: ids' =>
      match nth_error lm i, rows_at lm ids' with
      | Some r, Some rs => Some (r :: rs)
      | _, _ => None
      end
  end.

(** The array [lm] after [lm -= lm[0]] and [lm /= scale]. *)
Definition normalised (lm : list (list f32)) (wrist : list f32)
    : list (list f32) :=
  let centred := sub_row lm wrist in
  div_all centred (or_one (peak_to_peak centred)).

(** [lm[1:].flatten()] *)
Definition vec60_of (lm : list (list f32)) : list f32 := List.concat (tl lm).

Definition one_image_to_vector (img : Image) : Result :=
  if String.eqb (parent_name img) "nothing" then Message "class_nothing"
  else if negb (readable img) then Message "corrupt_image"
  else
    match multi_hand_landmarks img with
    | [] => Message "no_hand"
    | hand :: _ =>
        let lm := to_array hand in
        match lm with
        | [] => IndexError
        | wrist :: _ =>
            let lm := normalised lm wrist in
            let vec60 := vec60_of lm in
            match rows_at lm tip_ids with
            | None => IndexError
            | Some tips => Vector (vec60 ++ map norm tips)%list
            end
        end
    end.

End Notebook.

(** ** The specification's wording, for comparison with the code *)

Module Spec.

Import Client.

(** *** AcceptanceGate *)

(** The closed alphabet of the specification: 26 letters and the two
    control symbols. The code has no such table. *)
Definition letters : list string :=
  ["A"; "B"; "C"; "D"; "E"; "F"; "G"; "H"; "I"; "J"; "K"; "L"; "M";
   "N"; "O"; "P"; "Q"; "R"; "S"; "T"; "U"; "V"; "W"; "X"; "Y"; "Z"].

Definition alphabet : list string := (letters ++ ["space"; "del"])%list.

Definition in_alphabet (label : string) : bool :=
  existsb (String.eqb label) alphabet.

(** AcceptanceState: [(lastAcceptedLabel, lastAcceptTime)]. *)
Definition AcceptanceState : Type := option Prediction * Z.

Definition acceptance (st : State) : AcceptanceState :=
  (lastAccepted st, lastAcceptTime st).

Definition same_label (label : string) (last : option Prediction) : bool :=
  match last with
  | Some (Label l) => String.eqb label l
  | _ => false
  end.

(** The three rules in order, rule 1 with a test of the label that is a
    parameter: [known label] says whether the label counts as known. *)
Definition accept_with (known : string -> bool) (label : string)
    (confidence : num) (state : AcceptanceState) (now : Z) : Decision :=
  if SFltb confidence CONF_THRESHOLD || String.eqb label "" || negb (known label)
  then Reject LowConfidence
  else if same_label label (fst state) && (now - snd state <=? DEBOUNCE_MS)
  then Reject Duplicate
  else Commit (Label label).

(** As the specification has rule 1: a label outside the alphabet is
    rejected. *)
Definition accept_as_stated : string -> num -> AcceptanceState -> Z -> Decision :=
  accept_with in_alphabet.

(** Rule 1 with no test of the alphabet: every non-empty label passes. *)
Definition accept : string -> num -> AcceptanceState -> Z -> Decision :=
  accept_with (fun _ => true).

(** *** Scheduler and LastSent *)

(** At most one request is unresolved, whatever the events. *)
Definition at_most_one_outstanding : Prop :=
  forall es : list Event, (List.length (inflight (run initial es)) <= 1)%nat.

(** The vector most recently submitted to the classifier, if any. *)
Definition last_submitted (st : State) : option (list num) :=
  match rev (sent st) with
  | [] => None
  | v :: _ => Some v
  end.

(** LastSent always holds the vector most recently submitted. *)
Definition lastSent_is_last_submitted : Prop :=
  forall es : list Event,
    lastSentLandmarks (run initial es) = last_submitted (run initial es).

(** A response that is a classification result: a string with a number. *)
Definition well_formed (prediction : option Prediction)
    (confidence : option Confidence) : bool :=
  match prediction, confidence with
  | Some (Label _), Some (Number _) => true
  | _, _ => false
  end.

(** A response that is not a classification result leaves the acceptance
    state as it is. *)
Definition invalid_response_changes_nothing : Prop :=
  forall (st : State) (flat : list num) (prediction : option Prediction)
         (confidence : option Confidence) (now : Z),
    well_formed prediction confidence = false ->
    acceptance (sendPayload_resume flat (Body prediction confidence now) st)
    = acceptance st.

(** The vector last sent, when there is one, is the body of a request that
    was sent; so is the argument of every suspended [sendPayload]. *)
Definition sent_before (st : State) : Prop :=
  (forall v, In v (inflight st) -> In v (sent st)) /\
  (forall v, lastSentLandmarks st = Some v -> In v (sent st)).

(** *** Sample values *)

(** The doubles nearest to 0.74 and 0.9. *)
Definition c074 : num := S754_finite false 6665327448508334 (-53).
Definition c090 : num := S754_finite false 8106479329266893 (-53).

(** The page after label [l] was accepted at time [t]. *)
Definition accepted (l : string) (t : Z) : State :=
  {| lastFrameLandmarks := None; lastSentLandmarks := None;
     lastAccepted := Some (Label l); lastAcceptTime := t;
     typed := l; logArea := LogEmpty; inflight := []; sent := [] |}.

(** Two hands, whose flattened landmarks are [0.01, 0, 0] and
    [0.75, 0, 0]. *)
Definition a_hand : list Landmark := [{| lx := THRESHOLD; ly := zero; lz := zero |}].
Definition another_hand : list Landmark :=
  [{| lx := CONF_THRESHOLD; ly := zero; lz := zero |}].

End Spec.

Module NormalizerSpec.

Import Notebook.

(** *** FeatureNormalizer, on landmarks *)

Definition coords (p : Landmark) : list f32 := [x p; y p; z p].

Definition origin : Landmark := {| x := zero; y := zero; z := zero |}.

(** Subtract the wrist from a point. *)
Definition centre (wrist p : Landmark) : Landmark :=
  {| x := sub (x p) (x wrist); y := sub (y p) (y wrist); z := sub (z p) (z wrist) |}.

(** Peak-to-peak range of one axis: maximum minus minimum. *)
Definition range (c : list f32) : f32 := sub (np_max c) (np_min c).

(** The maximum, over the three axes, of the peak-to-peak range. *)
Definition max_range (pts : list Landmark) : f32 :=
  np_max [range (map x pts); range (map y pts); range (map z pts)].

Definition scale_by (s : f32) (p : Landmark) : Landmark :=
  {| x := div (x p) s; y := div (y p) s; z := div (z p) s |}.

(** The Euclidean norm of a point: the squares are added in binary64,
    the sum is rounded to binary32 and its square root taken. *)
Definition euclidean_norm (p : Landmark) : f32 :=
  sqrt (to_f32 (SFadd 53 1024
                  (SFadd 53 1024 (mul (x p) (x p)) (mul (y p) (y p)))
                  (mul (z p) (z p)))).

Definition fingertips : list nat := [4; 8; 12; 16; 20]%nat.

(** The 21 points, wrist-centred and divided by the scale; [adjust] is what
    is done to the maximum range before dividing by it. *)
Definition normalise_with (adjust : f32 -> f32) (pose : list Landmark)
    : list Landmark :=
  let centred := map (centre (nth 0 pose origin)) pose in
  map (scale_by (adjust (max_range centred))) centred.

(** Drop the wrist, flatten; in extended mode append the norms of the
    fingertips. *)
Definition FeatureNormalizer_with (adjust : f32 -> f32) (extended : bool)
    (pose : list Landmark) : list f32 :=
  let pts := normalise_with adjust pose in
  (flat_map coords (tl pts) ++
   (if extended
    then map (fun i => euclidean_norm (nth i pts origin)) fingertips
    else []))%list.

(** With the guard of the code: a maximum range of zero is replaced by 1. *)
Definition normalise : list Landmark -> list Landmark := normalise_with or_one.

Definition FeatureNormalizer : bool -> list Landmark -> list f32 :=
  FeatureNormalizer_with or_one.

Definition has_non_finite (pose : list Landmark) : bool :=
  existsb (fun p => negb (IEEE.is_finite (x p) && IEEE.is_finite (y p)
                          && IEEE.is_finite (z p))) pose.

(** A pose with a non-finite coordinate never yields a vector. *)
Definition rejects_non_finite : Prop :=
  forall (img : Image) (hand : list Landmark) (others : list (list Landmark)),
    multi_hand_landmarks img = hand :: others ->
    has_non_finite hand = true ->
    forall v, one_image_to_vector img <> Vector v.

(** An absent pose leaves the pending sample of the page as it was. *)
Definition absent_leaves_pending : Prop :=
  forall st : Client.State,
    Client.lastFrameLandmarks (Client.onResults None st)
    = Client.lastFrameLandmarks st.

Definition has_non_finite_landmark (hand : list Client.Landmark) : bool :=
  existsb (fun p => negb (IEEE.is_finite (Client.lx p)
                          && IEEE.is_finite (Client.ly p)
                          && IEEE.is_finite (Client.lz p))) hand.

(** On the page, a pose with a non-finite coordinate does not become the
    pending sample, and the next tick sends nothing. *)
Definition non_finite_not_forwarded : Prop :=
  forall (hand : list Client.Landmark) (others : list (list Client.Landmark))
         (st : Client.State),
    has_non_finite_landmark hand = true ->
    Client.lastFrameLandmarks (Client.onResults (Some (hand :: others)) st)
    = Client.lastFrameLandmarks st /\
    Client.sent (Client.tick (Client.onResults (Some (hand :: others)) st))
    = Client.sent st.

(** A landmark of the page with a NaN coordinate. *)
Definition a_nan_landmark : Client.Landmark :=
  {| Client.lx := S754_nan; Client.ly := S754_zero false;
     Client.lz := S754_zero false |}.

(** A state of the page with a pending sample. *)
Definition a_pending_state : Client.State :=
  Client.onResults
    (Some [[{| Client.lx := S754_zero false; Client.ly := S754_zero false;
               Client.lz := S754_zero false |}]]) Client.initial.

(** A readable image of a class other than [nothing], with a hand. *)
Definition usable (img : Image) : bool :=
  negb (String.eqb (parent_name img) "nothing") && readable img.

(** *** Sample poses *)

(** A pose of 21 copies of the point (1, 1, 1). *)
Definition a_point : Landmark := {| x := one; y := one; z := one |}.
Definition degenerate : Image :=
  {| parent_name := "A"; readable := true;
     multi_hand_landmarks := [repeat a_point 21] |}.

(** A pose of 21 different points: point [i] is (i, 2i, 3 - i), the wrist
    (5, 10, -2). *)
Definition of_int (n : Z) : f32 := IEEE.of_Z 24 128 n.
Definition a_pose : list Landmark :=
  map (fun i => {| x := of_int i; y := of_int (2 * i); z := of_int (3 - i) |})
      [5; 1; 2; 3; 4; 5; 6; 7; 8; 9; 10; 11; 12; 13; 14; 15; 16; 17; 18; 19; 20].
Definition an_image : Image :=
  {| parent_name := "A"; readable := true; multi_hand_landmarks := [a_pose] |}.

(** A pose whose wrist has a NaN coordinate. *)
Definition a_nan_pose : list Landmark :=
  {| x := NaN; y := one; z := one |} :: repeat a_point 20.
Definition a_nan_image : Image :=
  {| parent_name := "A"; readable := true; multi_hand_landmarks := [a_nan_pose] |}.

End NormalizerSpec.

(** ** The earlier page ([part_001], first script) *)

Module Prototype.

Import Client.

(** [const INTERVAL_MS = 400] *)
Definition INTERVAL_MS : Z := 400.

(** [flattenLandmarks(lms)] *)
Definition flattenLandmarks (lms : list Landmark) : list num :=
  flat_map (fun p => [lx p; ly p; lz p]) lms.

(** The object [{ landmarks: flat, ts: Date.now() }]. *)
Record Payload := { landmarks : list num; ts : Z }.

(** The variable [latestLandmarks], what [console.log] has printed, oldest
    first, and the number of floats named in the text of [logArea] ([None]
    before the first payload). *)
Record Page := {
  latestLandmarks : option (list num);
  console : list Payload;
  floats_logged : option nat
}.

Definition start : Page :=
  {| latestLandmarks := None; console := []; floats_logged := None |}.

(** [sendPayload(flat)], with [now] for [Date.now()]. *)
Definition sendPayload (flat : list num) (now : Z) (pg : Page) : Page :=
  {| latestLandmarks := latestLandmarks pg;
     console := (console pg ++ [{| landmarks := flat; ts := now |}])%list;
     floats_logged := Some (List.length flat) |}.

(** [onResults(results)], without the drawing. *)
Definition onResults (multiHandLandmarks : option (list (list Landmark)))
    (pg : Page) : Page :=
  {| latestLandmarks :=
       match multiHandLandmarks with
       | Some (lms :: _) => Some (flattenLandmarks lms)
       | _ => None
       end;
     console := console pg;
     floats_logged := floats_logged pg |}.

(** The callback of [setInterval]:
    [if (latestLandmarks) sendPayload(latestLandmarks)]. *)
Definition interval (now : Z) (pg : Page) : Page :=
  match latestLandmarks pg with
  | Some flat => sendPayload flat now pg
  | None => pg
  end.

Inductive Callback :=
  | Results (multiHandLandmarks : option (list (list Landmark)))
  | Interval (now : Z).

Definition call (pg : Page) (c : Callback) : Page :=
  match c with
  | Results r => onResults r pg
  | Interval now => interval now pg
  end.

Definition run (pg : Page) (cs : list Callback) : Page := fold_left call cs pg.

End Prototype.

(** ** The notebook ([part_002]): the cell that runs a batch *)

Module Batch.

Import Notebook.

(** What the cell can raise. *)
Inductive Raised :=
  | KeyError (key : string)
  | IndexErrorRaised
  | ValueError.

(** The dictionary [fail_reasons], as the list of its items. *)
Definition Counts : Type := list (string * nat).

Definition fail_reasons_0 : Counts :=
  [("class_nothing", 0%nat); ("no_hand", 0%nat); ("corrupt_image", 0%nat)].

(** [d[key] += 1]; [None] is the [KeyError] of a key that is missing. *)
Fixpoint increment (key : string) (d : Counts) : option Counts :=
  match d with
  | [] => None
  | (k, n) :: d' =>
      if String.eqb key k then Some ((k, S n) :: d')
      else option_map (cons (k, n)) (increment key d')
  end.

(** [d[key]], 0 for a key that is missing. *)
Fixpoint lookup (key : string) (d : Counts) : nat :=
  match d with
  | [] => 0%nat
  | (k, n) :: d' => if String.eqb key k then n else lookup key d'
  end.

(** The two variables the loop updates. *)
Record Tally := { vecs : list (list f32); fail_reasons : Counts }.

Definition tally_0 : Tally := {| vecs := []; fail_reasons := fail_reasons_0 |}.

(** [for p in batch: ...], from the tally [t]. An exception of
    [one_image_to_vector] or of the dictionary ends the loop. *)
Fixpoint for_loop (batch : list Image) (t : Tally) : Raised + Tally :=
  match batch with
  | [] => inr t
  | p :: rest =>
      match one_image_to_vector p with
      | Vector v =>
          for_loop rest {| vecs := (vecs t ++ [v])%list;
                           fail_reasons := fail_reasons t |}
      | Message result =>
          match increment result (fail_reasons t) with
          | Some d => for_loop rest {| vecs := vecs t; fail_reasons := d |}
          | None => inl (KeyError result)
          end
      | IndexError => inl IndexErrorRaised
      end
  end.

(** [np.stack(vecs)]: the matrix of the rows, when there is a row and all
    rows have one length. *)
Definition np_stack (rows : list (list f32)) : Raised + list (list f32) :=
  match rows with
  | [] => inl ValueError
  | r :: rs =>
      if forallb (fun w => Nat.eqb (List.length w) (List.length r)) rs
      then inr rows
      else inl ValueError
  end.

(** [X.shape] of a matrix with a row. *)
Definition shape (X : list (list f32)) : nat * nat :=
  (List.length X, List.length (hd [] X)).

(** The cell up to [print("Batch matrix:", X_batch.shape)]: the tally of
    the loop and the shape printed. *)
Definition cell (batch : list Image) : Raised + (Tally * (nat * nat)) :=
  match for_loop batch tally_0 with
  | inl e => inl e
  | inr t =>
      match np_stack (vecs t) with
      | inl e => inl e
      | inr X => inr (t, shape X)
      end
  end.

(** The images of a batch whose result is the message [reason], and those
    whose result is a vector. *)
Definition with_message (reason : string) (batch : list Image) : list Image :=
  filter (fun p => match one_image_to_vector p with
                   | Message r => String.eqb r reason
                   | _ => false
                   end) batch.

Definition with_vector (batch : list Image) : list Image :=
  filter (fun p => match one_image_to_vector p with
                   | Vector _ => true
                   | _ => false
                   end) batch.

(** The vectors of a batch, in order. *)
Definition vectors (batch : list Image) : list (list f32) :=
  flat_map (fun p => match one_image_to_vector p with
                     | Vector v => [v]
                     | _ => []
                     end) batch.

(** The function raises on the image. *)
Definition raises (p : Image) : bool :=
  match one_image_to_vector p with IndexError => true | _ => false end.

(** A hand was detected in the image. *)
Definition has_hand (p : Image) : bool :=
  match multi_hand_landmarks p with [] => false | _ :: _ => true end.

(** The hand used, if any, has 21 landmarks. *)
Definition full_hand (p : Image) : bool :=
  match multi_hand_landmarks p with
  | [] => true
  | hand :: _ => Nat.eqb (List.length hand) 21
  end.

End Batch.

(** ** Executions of the page *)

Module Trace.

Import Client.

(** The hands that the MediaPipe results of a list of events deliver. *)
Fixpoint hands (es : list Event) : list (list Landmark) :=
  match es with
  | [] => []
  | Results (Some (hand :: _)) :: es' => hand :: hands es'
  | _ :: es' => hands es'
  end.

(** The event is the end of a request whose body was read. *)
Definition reads_body (e : Event) : bool :=
  match e with
  | Settle _ (Body _ _ _) => true
  | _ => false
  end.

(** Non-negative or NaN: [+0], a positive number, [+Infinity] or NaN. *)
Definition not_negative (a : num) : bool :=
  match a with
  | S754_zero s | S754_infinity s | S754_finite s _ _ => negb s
  | S754_nan => true
  end.

Definition has_nan (v : list num) : bool := existsb IEEE.is_nan v.

(** Every request body sent and the latest frame are flattened hands of
    the list [F]. *)
Definition from_hands (F : list (list Landmark)) (st : State) : Prop :=
  (forall v, In v (sent st) -> In v (map flatten F)) /\
  (forall v, lastFrameLandmarks st = Some v -> In v (map flatten F)).

(** The event is a tick or a result with [hand] first. *)
Definition holds (hand : list Landmark) (e : Event) : Prop :=
  e = Tick \/ exists others, e = Results (Some (hand :: others)).

(** The number of ticks among events. *)
Definition ticks (es : list Event) : nat :=
  List.length (filter (fun e => match e with Tick => true | _ => false end) es).

End Trace.

(** ** Poses with a NaN *)

Module Poses.

Import Notebook.

Definition nan_point : Landmark := {| x := NaN; y := NaN; z := NaN |}.

Definition has_nan (pose : list Landmark) : bool :=
  existsb (fun p => IEEE.is_nan (x p) || IEEE.is_nan (y p) || IEEE.is_nan (z p))
          pose.

End Poses.

(** ** The distance of the stability test, step by step *)

Module DistanceSpec.

(** The double nearest to 0.01. *)
Definition threshold : spec_float := S754_finite false 5764607523034235 (-59).

(** The square of the difference of the two elements at index [i]. *)
Definition squared_difference (a b : list spec_float) (i : nat) : spec_float :=
  let d := SFsub 53 1024 (nth i a S754_nan) (nth i b S754_nan) in
  SFmul 53 1024 d d.

(** The squares of the first [n] differences, added in index order from 0. *)
Fixpoint sum_of_squares (a b : list spec_float) (n : nat) : spec_float :=
  match n with
  | O => S754_zero false
  | S k => SFadd 53 1024 (sum_of_squares a b k) (squared_difference a b k)
  end.

(** The square root of the mean of the squared differences: in real
    numbers, the Euclidean distance divided by the square root of the
    length. Each of the operations is rounded to binary64. *)
Definition root_mean_square (a b : list spec_float) : spec_float :=
  SFsqrt 53 1024
    (SFdiv 53 1024 (sum_of_squares a b (List.length a))
       (binary_normalize 53 1024 (Z.of_nat (List.length a)) 0 false)).

(** The distance of the current vector to the vector last sent: infinite
    when there is none, and when the lengths differ. *)
Definition distance (current : list spec_float)
    (lastSent : option (list spec_float)) : spec_float :=
  match lastSent with
  | Some b => if Nat.eqb (List.length current) (List.length b)
              then root_mean_square current b
              else S754_infinity false
  | None => S754_infinity false
  end.

(** *** The same distance in exact arithmetic *)

(** The rational number that a finite value stands for. *)
Definition exact (a : spec_float) : Q :=
  match a with
  | S754_finite s m e =>
      ((if s then -1 else 1) * inject_Z (Zpos m) * 2 ^ e)%Q
  | _ => 0%Q
  end.

Definition exact_sum_of_squares (a b : list spec_float) : Q :=
  fold_right Qplus 0%Q
    (map (fun ab => ((exact (fst ab) - exact (snd ab)) ^ 2)%Q) (combine a b)).

(** The Euclidean distance of [a] and [b] divided by the square root of
    the length [n] is greater than [t]: no side being negative, this is
    [n * t^2 < sum of the squared differences]. *)
Definition exceeds (t : Q) (a b : list spec_float) : Prop :=
  (inject_Z (Z.of_nat (List.length a)) * t ^ 2 < exact_sum_of_squares a b)%Q.

(** C3 as the claim has it, the distance being the number that the
    definition gives: for vectors of finite numbers of one length, the
    test passes exactly when that distance is greater than the threshold
    [t]. *)
Definition submits_exactly_when_distance_exceeds (t : Q) : Prop :=
  forall a b : list spec_float,
    a <> [] -> List.length a = List.length b ->
    Forall (fun c => IEEE.is_finite c = true) a ->
    Forall (fun c => IEEE.is_finite c = true) b ->
    (Client.shouldSubmit a (Some b) = true <-> exceeds t a b).

(** The Euclidean distance divided by the square root of the length, the
    operations taken in that order in binary64. *)
Definition euclidean_over_root_length (a b : list spec_float) : spec_float :=
  SFdiv 53 1024
    (SFsqrt 53 1024 (sum_of_squares a b (List.length a)))
    (SFsqrt 53 1024
       (binary_normalize 53 1024 (Z.of_nat (List.length a)) 0 false)).

(** C3 as the claim has it, the distance being computed in binary64 as
    the claim words it. *)
Definition submits_exactly_when_quotient_exceeds : Prop :=
  forall a b : list spec_float,
    a <> [] -> List.length a = List.length b ->
    Forall (fun c => IEEE.is_finite c = true) a ->
    Forall (fun c => IEEE.is_finite c = true) b ->
    Client.shouldSubmit a (Some b)
    = SFltb threshold (euclidean_over_root_length a b).

(** Six numbers, the first 7060173499421551 * 2^-58, a little above
    0.01 * sqrt 6, the others 0. *)
Definition boundary_vector : list spec_float :=
  S754_finite false 7060173499421551 (-58) :: repeat (S754_zero false) 5.

End DistanceSpec.

(** ** The order of the IEEE values *)

Module Order.

(** A value that is not NaN as a triple of integers, compared in
    lexicographic order. *)
Definition key (a : spec_float) : Z * Z * Z :=
  match a with
  | S754_zero _ | S754_nan => (0, 0, 0)
  | S754_infinity false => (2, 0, 0)
  | S754_infinity true => (-2, 0, 0)
  | S754_finite false m e => (1, e, Zpos m)
  | S754_finite true m e => (-1, - e, Zneg m)
  end.

Definition lex_le (p q : Z * Z * Z) : Prop :=
  let '(p1, p2, p3) := p in
  let '(q1, q2, q3) := q in
  p1 < q1 \/ (p1 = q1 /\ (p2 < q2 \/ (p2 = q2 /\ p3 <= q3))).

(** [m] is an element of [l] that no element of [l] exceeds. *)
Definition greatest (m : spec_float) (l : list spec_float) : Prop :=
  In m l /\ Forall (fun a => SFleb a m = true) l.

(** [m] is an element of [l] that exceeds no element of [l]. *)
Definition least (m : spec_float) (l : list spec_float) : Prop :=
  In m l /\ Forall (fun a => SFleb m a = true) l.

(** Equal, or two zeros that differ in sign at most. *)
Definition same (a b : spec_float) : Prop :=
  a = b \/ (IEEE.is_zero a = true /\ IEEE.is_zero b = true).

End Order.

(** ** FeatureNormalizer, step by step *)

Module PoseSpec.

Import Notebook Order.

(** A valid pose: every coordinate is finite. *)
Definition finite_pose (pose : list Landmark) : bool :=
  forallb (fun p => IEEE.is_finite (x p) && IEEE.is_finite (y p)
                    && IEEE.is_finite (z p)) pose.

(** Coordinate 0, 1 or 2 of a point. *)
Definition coordinate (a : nat) (p : Landmark) : f32 :=
  match a with
  | O => x p
  | S O => y p
  | _ => z p
  end.

Definition no_point : Landmark := {| x := NaN; y := NaN; z := NaN |}.

(** Coordinate [a] of point [j] after point 0 was subtracted. *)
Definition centred (pose : list Landmark) (j a : nat) : f32 :=
  SFsub 24 128 (coordinate a (nth j pose no_point))
               (coordinate a (nth 0 pose no_point)).

(** The centred coordinates of all the points along axis [a]. *)
Definition axis (pose : list Landmark) (a : nat) : list f32 :=
  map (fun j => centred pose j a) (seq 0 (List.length pose)).

(** [r] is the peak-to-peak range of the values [c]: the greatest minus
    the least. *)
Definition is_range (r : f32) (c : list f32) : Prop :=
  exists M m, greatest M c /\ least m c /\ r = SFsub 24 128 M m.

(** [r] is the maximum of the peak-to-peak ranges of the three axes. *)
Definition is_max_range (r : f32) (pose : list Landmark) : Prop :=
  exists rx ry rz,
    is_range rx (axis pose 0) /\ is_range ry (axis pose 1) /\
    is_range rz (axis pose 2) /\ greatest r [rx; ry; rz].

(** The scale: the maximum range, or 1 when that range is zero. *)
Definition scale_of (r : f32) : f32 :=
  match r with
  | S754_zero _ => S754_finite false 8388608 (-23)
  | _ => r
  end.

(** Element [k] of the 60: coordinate [k mod 3] of point [1 + k / 3],
    centred and divided by the scale. *)
Definition feature (pose : list Landmark) (s : f32) (k : nat) : f32 :=
  SFdiv 24 128 (centred pose (1 + Nat.div k 3) (Nat.modulo k 3)) s.

(** A binary64 value rounded to binary32. *)
Definition round32 (a : spec_float) : f32 :=
  match a with
  | S754_finite s m e => binary_round 24 128 s m e
  | _ => a
  end.

(** The Euclidean norm of three numbers: the sum of the squares, taken in
    binary64 and rounded to binary32, and its square root. *)
Definition euclid (a b c : f32) : f32 :=
  SFsqrt 24 128
    (round32 (SFadd 53 1024
               (SFadd 53 1024 (SFmul 24 128 a a) (SFmul 24 128 b b))
               (SFmul 24 128 c c))).

(** The norm of point [i], centred and divided by the scale. *)
Definition tip_norm (pose : list Landmark) (s : f32) (i : nat) : f32 :=
  euclid (SFdiv 24 128 (centred pose i 0) s)
         (SFdiv 24 128 (centred pose i 1) s)
         (SFdiv 24 128 (centred pose i 2) s).

Definition features60 (pose : list Landmark) (s : f32) : list f32 :=
  map (feature pose s) (seq 0 60).

Definition features65 (pose : list Landmark) (s : f32) : list f32 :=
  (features60 pose s ++ map (tip_norm pose s) [4; 8; 12; 16; 20]%nat)%list.

End PoseSpec.

(** ** Facts about the IEEE operations *)

Module IEEEFacts.

Import IEEE.

(** *** Shifting a mantissa right *)

Lemma digits2_log2 (q : positive) : Zpos (digits2_pos q) = Z.log2 (Zpos q) + 1.
Proof.
  assert (E : digits2_pos q = Pos.size q) by (induction q; simpl; congruence).
  rewrite E. destruct q; simpl; lia.
Qed.

Lemma shr_m_shr_1 (r : shr_record) :
  0 <= shr_m r -> shr_m (shr_1 r) = Z.div2 (shr_m r).
Proof.
  destruct r as [m rb sb]; simpl. intros H.
  destruct m as [|p|p]; [reflexivity| |lia].
  destruct p; reflexivity.
Qed.

Lemma shr_m_iter (p : positive) : forall r, 0 <= shr_m r ->
  shr_m (iter_pos shr_1 p r) = Z.shiftr (shr_m r) (Zpos p).
Proof.
  induction p as [p IH|p IH|]; intros r H; simpl iter_pos.
  - assert (H1 : 0 <= shr_m (shr_1 r)).
    { rewrite shr_m_shr_1 by assumption. rewrite Z.div2_nonneg. assumption. }
    rewrite IH, IH, shr_m_shr_1
      by (try rewrite IH by assumption; try apply Z.shiftr_nonneg; assumption).
    rewrite Z.div2_spec, !Z.shiftr_shiftr by lia. f_equal. lia.
  - rewrite IH, IH
      by (try rewrite IH by assumption; try apply Z.shiftr_nonneg; assumption).
    rewrite Z.shiftr_shiftr by lia. f_equal. lia.
  - rewrite shr_m_shr_1 by assumption. apply Z.div2_spec.
Qed.

Lemma shr_spec (r : shr_record) (e n : Z) : 0 <= shr_m r ->
  shr_m (fst (shr r e n)) = Z.shiftr (shr_m r) (Z.max 0 n) /\
  snd (shr r e n) = e + Z.max 0 n.
Proof.
  intros H. destruct n as [|p|p]; simpl shr; simpl fst; simpl snd.
  - rewrite Z.shiftr_0_r. lia.
  - rewrite shr_m_iter by assumption. rewrite Z.max_r by lia. split; reflexivity.
  - rewrite Z.max_l by lia. rewrite Z.shiftr_0_r. lia.
Qed.

Lemma shiftr_pos (a n : Z) : 0 < a -> 0 <= n -> n <= Z.log2 a ->
  0 < Z.shiftr a n /\ Z.log2 (Z.shiftr a n) = Z.log2 a - n.
Proof.
  intros Ha Hn Hl. split.
  - assert (Z.shiftr a n <> 0) by (rewrite Z.shiftr_eq_0_iff; lia).
    pose proof (Z.shiftr_nonneg a n). lia.
  - rewrite Z.log2_shiftr by assumption. lia.
Qed.

Lemma round_nearest_even_bounds (m : Z) (l : location) :
  m <= round_nearest_even m l <= m + 1.
Proof.
  unfold round_nearest_even. destruct l as [|[| |]]; try lia.
  destruct (Z.even m); lia.
Qed.

(** *** Rounding a non-zero value in the normal range *)

Section Format.
Variables prec emax : Z.
Hypothesis prec_pos : 0 < prec.

Lemma binary_round_aux_nonzero s m e l :
  emin prec emax <= Z.log2 (Zpos m) + 1 + e - prec ->
  signed_nonzero s (binary_round_aux prec emax s (Zpos m) e l) = true.
Proof.
  intros Hn. unfold binary_round_aux, shr_fexp.
  pose proof (Z.log2_nonneg (Zpos m)) as Hl0.
  set (n1 := fexp prec emax (Zdigits2 (Zpos m) + e) - e).
  assert (Hn1 : Z.max 0 n1 <= Z.log2 (Zpos m)).
  { unfold n1, fexp. simpl Zdigits2. rewrite digits2_log2. lia. }
  destruct (shr_spec (shr_record_of_loc (Zpos m) l) e n1) as [E1 E2].
  { destruct l as [|[| |]]; simpl; lia. }
  destruct (shr (shr_record_of_loc (Zpos m) l) e n1) as [mrs' e'].
  simpl fst in E1; simpl snd in E2.
  assert (Em : shr_m (shr_record_of_loc (Zpos m) l) = Zpos m)
    by (destruct l as [|[| |]]; reflexivity).
  rewrite Em in E1.
  destruct (shiftr_pos (Zpos m) (Z.max 0 n1)) as [P1 L1]; try lia.
  rewrite <- E1 in P1, L1.
  pose proof (round_nearest_even_bounds (shr_m mrs') (loc_of_shr_record mrs')) as B.
  set (m2 := round_nearest_even (shr_m mrs') (loc_of_shr_record mrs')) in *.
  assert (L2 : Z.log2 (shr_m mrs') <= Z.log2 m2) by (apply Z.log2_le_mono; lia).
  set (n2 := fexp prec emax (Zdigits2 m2 + e') - e').
  assert (D2 : Zdigits2 m2 = Z.log2 m2 + 1).
  { destruct m2 as [|q|q]; try lia. simpl Zdigits2. apply digits2_log2. }
  assert (Hn2 : Z.max 0 n2 <= Z.log2 m2).
  { unfold n2, fexp. rewrite D2. pose proof (Z.log2_nonneg m2). lia. }
  destruct (shr_spec (shr_record_of_loc m2 loc_Exact) e' n2) as [E3 E4].
  { simpl. lia. }
  destruct (shr (shr_record_of_loc m2 loc_Exact) e' n2) as [mrs'' e''].
  simpl fst in E3; simpl snd in E4. simpl shr_m in E3.
  destruct (shiftr_pos m2 (Z.max 0 n2)) as [P3 _]; try lia.
  rewrite <- E3 in P3.
  destruct (shr_m mrs'') as [|q|q]; try lia.
  destruct (e'' <=? emax - prec); simpl; apply Bool.eqb_reflx.
Qed.

Lemma shl_align_digits m e e' :
  Z.log2 (Zpos (fst (shl_align m e e'))) + snd (shl_align m e e')
  = Z.log2 (Zpos m) + e.
Proof.
  unfold shl_align. destruct (e' - e) as [|d|d] eqn:E; simpl fst; simpl snd;
    try reflexivity.
  assert (S : Zpos (Pos.iter xO m d) = Z.shiftl (Zpos m) (Zpos d)).
  { simpl Z.shiftl. apply (Pos.iter_swap_gen _ _ Zpos xO (Z.mul 2)). reflexivity. }
  rewrite S, Z.log2_shiftl by lia. lia.
Qed.

Lemma binary_round_nonzero s m e :
  emin prec emax <= Z.log2 (Zpos m) + 1 + e - prec ->
  signed_nonzero s (binary_round prec emax s m e) = true.
Proof.
  intros H. unfold binary_round.
  pose proof (shl_align_digits m e (fexp prec emax (Zpos (digits2_pos m) + e))) as A.
  destruct (shl_align m e (fexp prec emax (Zpos (digits2_pos m) + e))) as [mz ez].
  simpl fst in A; simpl snd in A.
  apply binary_round_aux_nonzero. lia.
Qed.

Hypothesis emin_low : emin prec emax <= 1 - prec.

(** A positive integer converts to a positive value, never to a zero or
    to NaN. *)
Lemma of_Z_positive n : 0 < n -> signed_nonzero false (of_Z prec emax n) = true.
Proof.
  intros H. destruct n as [|p|p]; try lia.
  unfold of_Z, binary_normalize. apply binary_round_nonzero.
  pose proof (Z.log2_nonneg (Zpos p)). lia.
Qed.

(** *** Subtraction, product, quotient and square root around zero *)

Lemma sub_diag_finite x :
  is_finite x = true -> SFsub prec emax x x = S754_zero false.
Proof.
  destruct x as [s|s| |s m e]; simpl; try discriminate; intros _.
  - destruct s; reflexivity.
  - rewrite Z.sub_diag. reflexivity.
Qed.

Lemma sub_diag x : zero_or_nan (SFsub prec emax x x) = true.
Proof.
  destruct x as [s|s| |s m e]; simpl; try reflexivity.
  - destruct s; reflexivity.
  - destruct s; reflexivity.
  - rewrite Z.sub_diag. reflexivity.
Qed.

Lemma add_sq_zero_or_nan s d :
  zero_or_nan s = true -> zero_or_nan d = true ->
  zero_or_nan (SFadd prec emax s (SFmul prec emax d d)) = true.
Proof.
  destruct s as [[|]| | |]; try discriminate;
    destruct d as [[|]| | |]; try discriminate; reflexivity.
Qed.

Lemma sqrt_div_zero_or_nan s n :
  zero_or_nan s = true ->
  is_zero (SFsqrt prec emax (SFdiv prec emax s n)) = true \/
  SFsqrt prec emax (SFdiv prec emax s n) = S754_nan.
Proof.
  destruct s as [[|]| | |]; try discriminate; intros _;
    destruct n as [sn|sn| |sn mn en]; simpl; auto.
Qed.

Lemma sqrt_div_zero n :
  signed_nonzero false n = true ->
  SFsqrt prec emax (SFdiv prec emax (S754_zero false) n) = S754_zero false.
Proof.
  destruct n as [sn|sn| |sn mn en]; simpl; try discriminate;
    destruct sn; try discriminate; reflexivity.
Qed.

End Format.

(** *** Comparison *)

Lemma SFcompare_antisym (a b : spec_float) :
  SFcompare b a = option_map CompOpp (SFcompare a b).
Proof.
  destruct a as [sa|sa| |sa ma ea], b as [sb|sb| |sb mb eb]; simpl;
    try reflexivity; try (destruct sa; reflexivity);
    try (destruct sb; reflexivity);
    try (destruct sa, sb; reflexivity).
  f_equal. rewrite (Z.compare_antisym ea eb).
  destruct sa, sb; try reflexivity;
    destruct (ea ?= eb); simpl; try reflexivity;
    rewrite (Pos.compare_cont_antisym ma mb Eq); simpl;
    try rewrite CompOpp_involutive; reflexivity.
Qed.

Lemma SFcompare_refl (a : spec_float) :
  SFcompare a a = if is_nan a then None else Some Eq.
Proof.
  destruct a as [s|s| |s m e]; simpl; try reflexivity.
  - destruct s; reflexivity.
  - rewrite Z.compare_refl, Pos.compare_cont_refl. destruct s; reflexivity.
Qed.

Lemma SFltb_irrefl (a : spec_float) : SFltb a a = false.
Proof. unfold SFltb. rewrite SFcompare_refl. destruct (is_nan a); reflexivity. Qed.

(** For numbers, [a >= b] is the negation of [a < b]. *)
Lemma SFleb_not_ltb (a b : spec_float) :
  is_nan a = false -> is_nan b = false -> SFleb b a = negb (SFltb a b).
Proof.
  intros Ha Hb. unfold SFleb, SFltb. rewrite (SFcompare_antisym a b).
  destruct a as [sa|sa| |sa ma ea]; try discriminate;
    destruct b as [sb|sb| |sb mb eb]; try discriminate;
    destruct (SFcompare _ _) as [[| |]|] eqn:E; try reflexivity;
    simpl in E; discriminate.
Qed.

(** Nothing that is [+0], [-0] or NaN is above a threshold [>= 0]. *)
Lemma not_above_nonneg (t d : spec_float) :
  SFleb (S754_zero false) t = true ->
  is_zero d = true \/ d = S754_nan ->
  SFltb t d = false.
Proof.
  intros Ht [Hd|Hd].
  - destruct d as [sd| | |]; try discriminate.
    destruct t as [st|st| |st mt et]; try reflexivity;
      destruct st; try reflexivity; discriminate.
  - subst d. destruct t; reflexivity.
Qed.

End IEEEFacts.

(** ** The order of the IEEE values *)

Module OrderFacts.

Import IEEE IEEEFacts Order.

Lemma SFleb_key (a b : spec_float) :
  is_nan a = false -> is_nan b = false ->
  (SFleb a b = true <-> lex_le (key a) (key b)).
Proof.
  intros Ha Hb. unfold SFleb.
  destruct a as [sa|sa| |sa ma ea]; try discriminate;
    destruct b as [sb|sb| |sb mb eb]; try discriminate;
    cbn [SFcompare key lex_le];
    try (destruct sa; cbn; split; intros; try discriminate; try reflexivity; lia);
    try (destruct sb; cbn; split; intros; try discriminate; try reflexivity; lia);
    try (destruct sa, sb; cbn; split; intros; try discriminate; try reflexivity; lia).
  change (Pos.compare_cont Eq ma mb) with (Pos.compare ma mb).
  destruct sa, sb; cbn [key lex_le];
    try (split; intros; try discriminate; try reflexivity; lia).
  - destruct (Z.compare_spec ea eb) as [E|E|E];
      [destruct (Pos.compare_spec ma mb) as [F|F|F]| |]; cbn [CompOpp];
      split; intros H; try discriminate; try reflexivity; try lia.
  - destruct (Z.compare_spec ea eb) as [E|E|E];
      [destruct (Pos.compare_spec ma mb) as [F|F|F]| |];
      split; intros H; try discriminate; try reflexivity; try lia.
Qed.

Lemma SFleb_not_nan (a b : spec_float) :
  SFleb a b = true -> is_nan a = false /\ is_nan b = false.
Proof.
  unfold SFleb. destruct a, b; cbn [SFcompare]; try discriminate; auto.
Qed.

Lemma SFleb_trans (a b c : spec_float) :
  SFleb a b = true -> SFleb b c = true -> SFleb a c = true.
Proof.
  intros H1 H2.
  destruct (SFleb_not_nan a b H1) as [Na Nb].
  destruct (SFleb_not_nan b c H2) as [_ Nc].
  apply (SFleb_key a b Na Nb) in H1. apply (SFleb_key b c Nb Nc) in H2.
  apply (SFleb_key a c Na Nc).
  destruct (key a) as [[a1 a2] a3], (key b) as [[b1 b2] b3],
    (key c) as [[c1 c2] c3]. cbn [lex_le] in *. lia.
Qed.

Lemma SFleb_refl (a : spec_float) : is_nan a = false -> SFleb a a = true.
Proof.
  intros H. unfold SFleb. rewrite SFcompare_refl, H. reflexivity.
Qed.

(** Two values each below the other are equal, or are two zeros. *)
Lemma SFleb_antisym (a b : spec_float) :
  SFleb a b = true -> SFleb b a = true ->
  a = b \/ (is_zero a = true /\ is_zero b = true).
Proof.
  intros H1 H2.
  destruct (SFleb_not_nan a b H1) as [Na Nb].
  apply (SFleb_key a b Na Nb) in H1. apply (SFleb_key b a Nb Na) in H2.
  destruct a as [sa|sa| |sa ma ea]; try discriminate;
    destruct b as [sb|sb| |sb mb eb]; try discriminate;
    try (right; split; reflexivity);
    try (destruct sa; cbn in *; lia);
    try (destruct sb; cbn in *; lia);
    try (destruct sa, sb; cbn in *; try lia; left; reflexivity).
  left. destruct sa, sb; cbn [key lex_le] in *; try lia.
  - assert (ea = eb) by lia. assert (ma = mb) by lia. subst. reflexivity.
  - assert (ea = eb) by lia. assert (ma = mb) by lia. subst. reflexivity.
Qed.

(** *** What rounding never returns *)

Lemma binary_round_aux_not_nan prec emax s m e l :
  0 <= m -> is_nan (binary_round_aux prec emax s m e l) = false.
Proof.
  intros Hm. unfold binary_round_aux, shr_fexp.
  set (n1 := fexp prec emax (Zdigits2 m + e) - e).
  assert (Em : shr_m (shr_record_of_loc m l) = m)
    by (destruct l as [|[| |]]; reflexivity).
  destruct (shr_spec (shr_record_of_loc m l) e n1) as [E1 _]; [lia|].
  destruct (shr (shr_record_of_loc m l) e n1) as [mrs' e'].
  cbn [fst] in E1. rewrite Em in E1.
  assert (P1 : 0 <= shr_m mrs') by (rewrite E1; apply Z.shiftr_nonneg; exact Hm).
  pose proof (round_nearest_even_bounds (shr_m mrs') (loc_of_shr_record mrs')) as B.
  set (m2 := round_nearest_even (shr_m mrs') (loc_of_shr_record mrs')) in *.
  set (n2 := fexp prec emax (Zdigits2 m2 + e') - e').
  destruct (shr_spec (shr_record_of_loc m2 loc_Exact) e' n2) as [E3 _];
    [cbn; lia|].
  destruct (shr (shr_record_of_loc m2 loc_Exact) e' n2) as [mrs'' e''].
  cbn [fst shr_record_of_loc shr_m] in E3.
  assert (P3 : 0 <= shr_m mrs'') by (rewrite E3; apply Z.shiftr_nonneg; lia).
  destruct (shr_m mrs'') as [|q|q]; try lia; try reflexivity.
  destruct (e'' <=? emax - prec); reflexivity.
Qed.

Lemma binary_normalize_not_nan prec emax m e sz :
  is_nan (binary_normalize prec emax m e sz) = false.
Proof.
  destruct m as [|p|p]; cbn [binary_normalize]; try reflexivity;
    unfold binary_round; destruct (shl_align p e _) as [mz ez];
    apply binary_round_aux_not_nan; lia.
Qed.

(** The difference of two finite values is not NaN. *)
Lemma sub_finite_not_nan prec emax (a b : spec_float) :
  is_finite a = true -> is_finite b = true ->
  is_nan (SFsub prec emax a b) = false.
Proof.
  destruct a as [sa|sa| |sa ma ea]; try discriminate;
    destruct b as [sb|sb| |sb mb eb]; try discriminate; intros _ _;
    cbn [SFsub]; try reflexivity.
  - destruct sa, sb; reflexivity.
  - apply binary_normalize_not_nan.
Qed.

(** The difference of a value that is not below 0 and of one that is not
    above 0 is not NaN. *)
Lemma sub_across_zero_not_nan prec emax (M m : spec_float) :
  SFleb (S754_zero false) M = true -> SFleb m (S754_zero false) = true ->
  is_nan (SFsub prec emax M m) = false.
Proof.
  destruct M as [sM|[|]| |[|] mM eM]; try discriminate;
    destruct m as [sm|[|]| |[|] mm em]; try discriminate; intros _ _;
    cbn [SFsub]; try reflexivity.
  - destruct sM, sm; reflexivity.
  - apply binary_normalize_not_nan.
Qed.

End OrderFacts.

(** ** The maximum and the minimum of an array *)

Module Extremes.

Import IEEE IEEEFacts Order OrderFacts Notebook.

Lemma maximum_spec (a b : f32) :
  is_nan a = false -> is_nan b = false ->
  (maximum a b = a \/ maximum a b = b) /\
  SFleb a (maximum a b) = true /\ SFleb b (maximum a b) = true.
Proof.
  intros Ha Hb. unfold maximum, lt. rewrite Ha, Hb.
  destruct (SFltb a b) eqn:E.
  - repeat split; [right; reflexivity | | apply SFleb_refl; exact Hb].
    unfold SFltb in E. unfold SFleb.
    destruct (SFcompare a b) as [[| |]|]; try discriminate. reflexivity.
  - repeat split; [left; reflexivity | apply SFleb_refl; exact Ha |].
    rewrite (SFleb_not_ltb a b Ha Hb), E. reflexivity.
Qed.

Lemma minimum_spec (a b : f32) :
  is_nan a = false -> is_nan b = false ->
  (minimum a b = a \/ minimum a b = b) /\
  SFleb (minimum a b) a = true /\ SFleb (minimum a b) b = true.
Proof.
  intros Ha Hb. unfold minimum, lt. rewrite Ha, Hb.
  destruct (SFltb b a) eqn:E.
  - repeat split; [right; reflexivity | | apply SFleb_refl; exact Hb].
    unfold SFltb in E. unfold SFleb.
    destruct (SFcompare b a) as [[| |]|]; try discriminate. reflexivity.
  - repeat split; [left; reflexivity | apply SFleb_refl; exact Ha |].
    rewrite (SFleb_not_ltb b a Hb Ha), E. reflexivity.
Qed.

Lemma fold_maximum_greatest (t : list f32) : forall h,
  is_nan h = false -> Forall (fun a => is_nan a = false) t ->
  greatest (fold_left maximum t h) (h :: t).
Proof.
  induction t as [|a t IH]; intros h Hh Ht.
  - split; [left; reflexivity|]. constructor; [apply SFleb_refl; exact Hh | constructor].
  - inversion Ht as [|a' t' Ha Ht']; subst. cbn [fold_left].
    destruct (maximum_spec h a Hh Ha) as (Hc & L1 & L2).
    assert (Nm : is_nan (maximum h a) = false) by (destruct Hc as [->| ->]; assumption).
    destruct (IH (maximum h a) Nm Ht') as [Hin Hall].
    inversion Hall as [|m0 t0 Hm Hrest]; subst.
    split.
    + destruct Hin as [E|Hin].
      * rewrite <- E. destruct Hc as [->| ->]; [left; reflexivity | right; left; reflexivity].
      * right. right. exact Hin.
    + constructor; [exact (SFleb_trans _ _ _ L1 Hm)|].
      constructor; [exact (SFleb_trans _ _ _ L2 Hm) | exact Hrest].
Qed.

Lemma fold_minimum_least (t : list f32) : forall h,
  is_nan h = false -> Forall (fun a => is_nan a = false) t ->
  least (fold_left minimum t h) (h :: t).
Proof.
  induction t as [|a t IH]; intros h Hh Ht.
  - split; [left; reflexivity|]. constructor; [apply SFleb_refl; exact Hh | constructor].
  - inversion Ht as [|a' t' Ha Ht']; subst. cbn [fold_left].
    destruct (minimum_spec h a Hh Ha) as (Hc & L1 & L2).
    assert (Nm : is_nan (minimum h a) = false) by (destruct Hc as [->| ->]; assumption).
    destruct (IH (minimum h a) Nm Ht') as [Hin Hall].
    inversion Hall as [|m0 t0 Hm Hrest]; subst.
    split.
    + destruct Hin as [E|Hin].
      * rewrite <- E. destruct Hc as [->| ->]; [left; reflexivity | right; left; reflexivity].
      * right. right. exact Hin.
    + constructor; [exact (SFleb_trans _ _ _ Hm L1)|].
      constructor; [exact (SFleb_trans _ _ _ Hm L2) | exact Hrest].
Qed.

(** [np.max] of an array with an element and no NaN is its greatest
    element, [np.min] its least. *)
Lemma np_max_greatest (l : list f32) :
  l <> [] -> Forall (fun a => is_nan a = false) l -> greatest (np_max l) l.
Proof.
  intros Hne H. destruct l as [|h t]; [congruence|].
  inversion H; subst. apply fold_maximum_greatest; assumption.
Qed.

Lemma np_min_least (l : list f32) :
  l <> [] -> Forall (fun a => is_nan a = false) l -> least (np_min l) l.
Proof.
  intros Hne H. destruct l as [|h t]; [congruence|].
  inversion H; subst. apply fold_minimum_least; assumption.
Qed.

End Extremes.

(** ** StabilityGate: [l2] and the test of the periodic callback *)

Module StabilityGate.

Import IEEE IEEEFacts Client DistanceSpec.

Lemma of_nat_positive (n : nat) :
  (0 < n)%nat -> signed_nonzero false (of_nat n) = true.
Proof.
  intros H. unfold of_nat. apply of_Z_positive.
  - reflexivity.
  - discriminate.
  - lia.
Qed.

Lemma l2_sum_self_from (v : list num) : forall s,
  zero_or_nan s = true ->
  zero_or_nan
    (fold_left (fun sum ab => let d := sub (fst ab) (snd ab) in add sum (mul d d))
               (combine v v) s) = true.
Proof.
  induction v as [|a v IH]; intros s Hs; simpl.
  - assumption.
  - apply IH. apply add_sq_zero_or_nan; [assumption | apply sub_diag].
Qed.

Lemma l2_sum_self_finite (v : list num) :
  Forall (fun a => is_finite a = true) v -> l2_sum v v = zero.
Proof.
  unfold l2_sum. induction 1 as [|a v Ha _ IH]; cbn [combine fold_left fst snd].
  - reflexivity.
  - change (sub a a) with (SFsub 53 1024 a a).
    rewrite (sub_diag_finite 53 1024 a Ha).
    change (add zero (mul (S754_zero false) (S754_zero false))) with zero.
    exact IH.
Qed.

(** The distance from a vector to itself is a zero or NaN. *)
Lemma l2_self (v : list num) :
  is_zero (l2 (Some v) (Some v)) = true \/ l2 (Some v) (Some v) = NaN.
Proof.
  unfold l2. rewrite Nat.eqb_refl. simpl negb. cbv iota.
  apply sqrt_div_zero_or_nan. apply l2_sum_self_from. reflexivity.
Qed.

Lemma firstn_snoc {A} (d : A) (l : list A) : forall n,
  (n < List.length l)%nat -> firstn (S n) l = (firstn n l ++ [nth n l d])%list.
Proof.
  induction l as [|h l IH]; intros n Hn; cbn [List.length] in Hn; [lia|].
  destruct n as [|n]; [reflexivity|].
  cbn [firstn nth app]. f_equal. apply IH. lia.
Qed.

(** The loop of [l2] adds the squared differences in index order. *)
Lemma l2_sum_firstn (a b : list num) :
  List.length a = List.length b ->
  forall n, (n <= List.length a)%nat ->
  fold_left (fun sum ab => let d := sub (fst ab) (snd ab) in add sum (mul d d))
            (firstn n (combine a b)) zero
  = sum_of_squares a b n.
Proof.
  intros Hlen. induction n as [|n IH]; intros Hn; [reflexivity|].
  rewrite (firstn_snoc ((NaN, NaN) : num * num)) by (rewrite length_combine; lia).
  rewrite fold_left_app, IH by lia.
  rewrite combine_nth by exact Hlen. reflexivity.
Qed.

Lemma l2_sum_sum_of_squares (a b : list num) :
  List.length a = List.length b ->
  l2_sum a b = sum_of_squares a b (List.length a).
Proof.
  intros Hlen. rewrite <- (l2_sum_firstn a b Hlen (List.length a)) by lia.
  unfold l2_sum. rewrite firstn_all2 by (rewrite length_combine; lia).
  reflexivity.
Qed.

Lemma l2_distance (current : list num) (lastSent : option (list num)) :
  l2 (Some current) lastSent = distance current lastSent.
Proof.
  unfold l2, distance. destruct lastSent as [b|]; [|reflexivity].
  unfold num in *.
  destruct (Nat.eqb (List.length current) (List.length b)) eqn:E;
    cbn [negb]; [|reflexivity].
  apply Nat.eqb_eq in E. rewrite (l2_sum_sum_of_squares _ _ E).
  reflexivity.
Qed.

(** C3 as the claim has it fails: the distance of [boundary_vector] to the
    zero vector is greater than THRESHOLD, taken as the double or as
    1/100, and so is the quotient of the Euclidean distance by the square
    root of the length computed in binary64, and the frame is not
    submitted. *)
Lemma submits_exactly_when_distance_exceeds_counterexample :
  ~ submits_exactly_when_distance_exceeds (exact threshold) /\
  ~ submits_exactly_when_distance_exceeds (1 # 100) /\
  ~ submits_exactly_when_quotient_exceeds.
Proof.
  assert (F1 : Forall (fun c => is_finite c = true) boundary_vector)
    by (repeat constructor).
  assert (F2 : Forall (fun c => is_finite c = true) (repeat (S754_zero false) 6))
    by (repeat constructor).
  assert (N : boundary_vector <> []) by discriminate.
  assert (S : shouldSubmit boundary_vector (Some (repeat (S754_zero false) 6)) = false)
    by (vm_compute; reflexivity).
  split; [|split]; intros H;
    specialize (H boundary_vector (repeat (S754_zero false) 6) N eq_refl F1 F2).
  - destruct H as [_ H].
    assert (E : exceeds (exact threshold) boundary_vector (repeat (S754_zero false) 6))
      by (vm_compute; reflexivity).
    rewrite S in H. specialize (H E). discriminate.
  - destruct H as [_ H].
    assert (E : exceeds (1 # 100) boundary_vector (repeat (S754_zero false) 6))
      by (vm_compute; reflexivity).
    rewrite S in H. specialize (H E). discriminate.
  - rewrite S in H. vm_compute in H. discriminate.
Qed.

(** C3. The periodic callback submits a present frame exactly when the
    number that [l2(current, lastSent)] computes is strictly greater than
    THRESHOLD, the double nearest to 0.01. That number is Infinity when no
    vector was sent yet, or when the lengths differ; otherwise it is the
    square root of the mean squared difference, computed in binary64: the
    differences are squared and added in index order from 0, the sum is
    divided by the length and the square root is taken, each operation
    rounded. With no vector sent yet the frame is submitted, whatever it
    holds. The distance from a non-empty vector of finite numbers to itself
    is 0, and no vector is submitted against itself for a threshold that is
    not negative. A computed distance equal to the threshold does not
    submit: so for the one-element vectors [0.01] and [0], and so for
    [boundary_vector] and six zeros, whose distance in exact arithmetic is
    greater than the threshold and than 0.01. *)
Theorem shouldSubmit_spec
    (current v : list num) (lastSent : option (list num)) (threshold : num)
    (st : State) :
  Forall (fun a => is_finite a = true) v ->
  v <> [] ->
  ge threshold zero = true ->
  l2 (Some current) lastSent = distance current lastSent /\
  (shouldSubmit current lastSent = true <->
   SFltb DistanceSpec.threshold (distance current lastSent) = true) /\
  tick st = match lastFrameLandmarks st with
            | Some cur => if shouldSubmit cur (lastSentLandmarks st)
                          then sendPayload_call cur st else st
            | None => st
            end /\
  distance current None = S754_infinity false /\
  shouldSubmit current None = true /\
  distance v (Some v) = S754_zero false /\
  shouldSubmit v (Some v) = false /\
  shouldSubmit_at threshold current (Some current) = false /\
  shouldSubmit_at (l2 (Some current) lastSent) current lastSent = false /\
  distance [DistanceSpec.threshold] (Some [S754_zero false]) = DistanceSpec.threshold /\
  shouldSubmit [THRESHOLD] (Some [zero]) = false /\
  distance boundary_vector (Some (repeat (S754_zero false) 6)) = DistanceSpec.threshold /\
  shouldSubmit boundary_vector (Some (repeat zero 6)) = false /\
  exceeds (exact DistanceSpec.threshold) boundary_vector (repeat (S754_zero false) 6) /\
  exceeds (1 # 100) boundary_vector (repeat (S754_zero false) 6).
Proof.
  intros Hfin Hne Hthr.
  assert (Z : l2 (Some v) (Some v) = zero).
  { unfold l2. rewrite Nat.eqb_refl. simpl negb. cbv iota.
    rewrite (l2_sum_self_finite v Hfin).
    apply sqrt_div_zero. apply of_nat_positive.
    destruct v; [congruence | simpl; lia]. }
  split; [apply l2_distance|].
  split; [unfold shouldSubmit, shouldSubmit_at, gt; rewrite l2_distance; reflexivity|].
  split; [reflexivity|].
  split; [reflexivity|].
  split; [reflexivity|].
  split; [rewrite <- l2_distance; exact Z|].
  split; [unfold shouldSubmit, shouldSubmit_at; rewrite Z; reflexivity|].
  split.
  { unfold shouldSubmit_at, gt. apply not_above_nonneg.
    - exact Hthr.
    - apply l2_self. }
  split; [unfold shouldSubmit_at, gt; apply SFltb_irrefl|].
  repeat split; vm_compute; reflexivity.
Qed.

Lemma shouldSubmit_spec_witness :
  shouldSubmit_at zero [THRESHOLD; Infinity] (Some [THRESHOLD; Infinity]) = false /\
  distance [THRESHOLD; CONF_THRESHOLD] (Some [THRESHOLD; CONF_THRESHOLD])
  = S754_zero false /\
  l2 (Some [THRESHOLD; Infinity]) None = distance [THRESHOLD; Infinity] None.
Proof.
  assert (F : Forall (fun a => is_finite a = true) [THRESHOLD; CONF_THRESHOLD])
    by (repeat constructor).
  assert (N : [THRESHOLD; CONF_THRESHOLD] <> []) by discriminate.
  pose proof (shouldSubmit_spec [THRESHOLD; Infinity] [THRESHOLD; CONF_THRESHOLD]
                None zero initial F N eq_refl) as H.
  repeat split; apply H.
Defined.

(** C10. Two vectors of unequal length are at distance Infinity, so a
    frame whose length differs from that of the vector last sent is
    submitted by the periodic callback. *)
Theorem l2_length_mismatch (a b : list num) (st : State) :
  List.length a <> List.length b ->
  lastFrameLandmarks st = Some a ->
  lastSentLandmarks st = Some b ->
  l2 (Some a) (Some b) = Infinity /\
  shouldSubmit a (Some b) = true /\
  tick st = sendPayload_call a st.
Proof.
  intros Hlen Hf Hs.
  assert (E : l2 (Some a) (Some b) = Infinity).
  { unfold l2. apply Nat.eqb_neq in Hlen. rewrite Hlen. reflexivity. }
  repeat split.
  - exact E.
  - unfold shouldSubmit, shouldSubmit_at. rewrite E. reflexivity.
  - unfold tick. rewrite Hf, Hs, E. reflexivity.
Qed.

Lemma l2_length_mismatch_witness :
  l2 (Some (repeat zero 65)) (Some (repeat zero 60)) = Infinity /\
  shouldSubmit (repeat zero 65) (Some (repeat zero 60)) = true.
Proof.
  pose proof (l2_length_mismatch (repeat zero 65) (repeat zero 60)
    {| lastFrameLandmarks := Some (repeat zero 65);
       lastSentLandmarks := Some (repeat zero 60);
       lastAccepted := None; lastAcceptTime := 0; typed := "";
       logArea := LogEmpty; inflight := []; sent := [] |}) as H.
  simpl in H.
  destruct H as (H1 & H2 & _); [discriminate | reflexivity | reflexivity | ].
  split; assumption.
Defined.

End StabilityGate.

(** ** AcceptanceGate: [handlePrediction] *)

Module AcceptanceGate.

Import IEEE IEEEFacts Client Spec.

Lemma differs_same_label (label : string) (last : option Prediction) :
  differs (Label label) last = negb (same_label label last).
Proof. destruct last as [[l| | | | ]|]; reflexivity. Qed.

(** C2, as the claim has it, fails: a confident label outside the 28-symbol
    alphabet is committed, where rule 1 of the claim rejects it. *)
Lemma accept_as_stated_counterexample :
  fst (handlePrediction (Some (Label "nothing")) (Some (Number c090)) 5000 initial)
  <> accept_as_stated "nothing" c090 (acceptance initial) 5000.
Proof. vm_compute. discriminate. Qed.

(** C2, amended. For a label and a confidence that is a number,
    [handlePrediction] decides by the three rules in order, with no test of
    the alphabet in rule 1: low confidence when [confidence < 0.75] or the
    label is empty; otherwise duplicate when the label is the last accepted
    one and [now - lastAcceptTime <= 2000]; otherwise commit. Confidence
    0.74 is rejected, 0.75 is not; a repetition 1000 ms or 2000 ms after
    the acceptance is a duplicate, one 2001 ms or 2500 ms after it is
    committed. *)
Theorem handlePrediction_decides
    (label : string) (confidence : num) (now : Z) (st : State) :
  is_nan confidence = false ->
  fst (handlePrediction (Some (Label label)) (Some (Number confidence)) now st)
  = accept label confidence (acceptance st) now /\
  fst (handlePrediction (Some (Label "A")) (Some (Number c074)) now initial)
  = Reject LowConfidence /\
  fst (handlePrediction (Some (Label "A")) (Some (Number CONF_THRESHOLD)) now initial)
  = Commit (Label "A") /\
  fst (handlePrediction (Some (Label "A")) (Some (Number c090)) 1000 (accepted "A" 0))
  = Reject Duplicate /\
  fst (handlePrediction (Some (Label "A")) (Some (Number c090)) 2000 (accepted "A" 0))
  = Reject Duplicate /\
  fst (handlePrediction (Some (Label "A")) (Some (Number c090)) 2001 (accepted "A" 0))
  = Commit (Label "A") /\
  fst (handlePrediction (Some (Label "A")) (Some (Number c090)) 2500 (accepted "A" 0))
  = Commit (Label "A") /\
  fst (handlePrediction (Some (Label "B")) (Some (Number c090)) 1000 (accepted "A" 0))
  = Commit (Label "B").
Proof.
  intros Hnan. split; [|repeat split].
  unfold handlePrediction, accept, accept_with, confident, to_number, truthy, ge,
    acceptance.
  rewrite (SFleb_not_ltb confidence CONF_THRESHOLD Hnan eq_refl).
  cbn [fst snd].
  destruct (SFltb confidence CONF_THRESHOLD); cbn [negb orb]; [reflexivity|].
  destruct (String.eqb label ""); cbn [negb orb]; [reflexivity|].
  rewrite differs_same_label, (Z.ltb_antisym _ DEBOUNCE_MS).
  destruct (same_label label (lastAccepted st)); cbn [negb orb andb];
    [|reflexivity].
  destruct (now - lastAcceptTime st <=? DEBOUNCE_MS); reflexivity.
Qed.

Lemma handlePrediction_decides_witness :
  fst (handlePrediction (Some (Label "space")) (Some (Number c090)) 7000
         (accepted "A" 6000))
  = accept "space" c090 (acceptance (accepted "A" 6000)) 7000.
Proof.
  apply (handlePrediction_decides "space" c090 7000 (accepted "A" 6000)).
  reflexivity.
Defined.

Lemma handlePrediction_acceptance prediction confidence now st :
  acceptance (snd (handlePrediction prediction confidence now st))
  = match fst (handlePrediction prediction confidence now st) with
    | Commit label => (Some label, now)
    | Reject _ => acceptance st
    end.
Proof.
  unfold handlePrediction.
  destruct (confident confidence); [|reflexivity].
  destruct (truthy prediction); [|reflexivity].
  destruct (_ || _); reflexivity.
Qed.

Lemma resume_acceptance flat prediction confidence now st :
  acceptance (sendPayload_resume flat (Body prediction confidence now) st)
  = acceptance (snd (handlePrediction prediction confidence now st)).
Proof.
  unfold sendPayload_resume. cbv zeta. destruct (toFixed_throws confidence); reflexivity.
Qed.

(** C6, as the claim has it, fails: nothing tests the types of the fields,
    and the response with prediction ["A"] and, for its confidence, the
    string ["0.9"] is committed, the exception of [toFixed] coming after
    the acceptance state was set. *)
Lemma invalid_response_changes_nothing_counterexample :
  ~ invalid_response_changes_nothing.
Proof.
  intros H.
  specialize (H initial [] (Some (Label "A")) (Some (NotANumber c090)) 5000 eq_refl).
  vm_compute in H. discriminate.
Qed.

(** C6, amended. The acceptance state is set, to the committed value and
    to [now], exactly when [handlePrediction] commits, and is left as it
    was when it rejects; a request whose [fetch] or whose body fails, a
    body with a missing or [null] confidence or a missing prediction, and
    the other callbacks leave it as it was. The types of the two fields are
    not tested: a body is decided by the number that its confidence
    converts to, and when it is committed the exception that [toFixed]
    then throws for a confidence that is not a number undoes nothing. Over
    one event, the acceptance state changes only at the end of a request
    whose body is read and committed; and a confident, non-empty label is
    committed once the window has passed. *)
Theorem acceptance_state_changes_on_commit_only
    (st : State) (label : string) (c : num) (t : Z) :
  String.eqb label "" = false ->
  ge c CONF_THRESHOLD = true ->
  DEBOUNCE_MS < t - lastAcceptTime st ->
  (forall prediction confidence now,
     acceptance (snd (handlePrediction prediction confidence now st))
     = match fst (handlePrediction prediction confidence now st) with
       | Commit p => (Some p, now)
       | Reject _ => acceptance st
       end) /\
  (forall flat prediction confidence now,
     acceptance (sendPayload_resume flat (Body prediction confidence now) st)
     = acceptance (snd (handlePrediction prediction confidence now st))) /\
  (forall flat message,
     acceptance (sendPayload_resume flat (FetchRejected message) st) = acceptance st) /\
  (forall flat message,
     acceptance (sendPayload_resume flat (BodyRejected message) st) = acceptance st) /\
  (forall flat prediction now,
     acceptance (sendPayload_resume flat (Body prediction None now) st)
     = acceptance st) /\
  (forall flat prediction now,
     acceptance (sendPayload_resume flat (Body prediction (Some CNull) now) st)
     = acceptance st) /\
  (forall flat confidence now,
     acceptance (sendPayload_resume flat (Body None confidence now) st)
     = acceptance st) /\
  (forall flat, acceptance (sendPayload_call flat st) = acceptance st) /\
  (forall r, acceptance (onResults r st) = acceptance st) /\
  acceptance (tick st) = acceptance st /\
  (forall e,
     acceptance (step st e)
     = match e with
       | Settle i (Body prediction confidence now) =>
           match nth_error (inflight st) i,
                 fst (handlePrediction prediction confidence now st) with
           | Some _, Commit p => (Some p, now)
           | _, _ => acceptance st
           end
       | _ => acceptance st
       end) /\
  acceptance (snd (handlePrediction (Some (Label label)) (Some (Number c)) t st))
  = (Some (Label label), t) /\
  acceptance (sendPayload_resume [] (Body (Some (Label label)) (Some (NotANumber c)) t) st)
  = (Some (Label label), t).
Proof.
  intros Hl Hc Hw.
  assert (T : acceptance (tick st) = acceptance st).
  { unfold tick. destruct (lastFrameLandmarks st); [|reflexivity].
    destruct (gt _ _); reflexivity. }
  assert (K : forall confidence, to_number confidence = c ->
     acceptance (snd (handlePrediction (Some (Label label)) confidence t st))
     = (Some (Label label), t)).
  { intros confidence E. unfold handlePrediction, confident, truthy.
    rewrite E, Hc, Hl. apply Z.ltb_lt in Hw. rewrite Hw, orb_true_r. reflexivity. }
  split; [intros; apply handlePrediction_acceptance|].
  split; [intros; apply resume_acceptance|].
  split; [reflexivity|]. split; [reflexivity|].
  split; [intros; rewrite resume_acceptance; reflexivity|].
  split; [intros; rewrite resume_acceptance; reflexivity|].
  split.
  { intros flat confidence now. rewrite resume_acceptance.
    unfold handlePrediction. cbn [truthy]. destruct (confident confidence); reflexivity. }
  split; [reflexivity|]. split; [reflexivity|]. split; [exact T|].
  split.
  { intros [r| |i [m|m|p q now]]; try reflexivity; try exact T.
    - simpl. destruct (nth_error (inflight st) i); reflexivity.
    - simpl. destruct (nth_error (inflight st) i); reflexivity.
    - cbn [step]. destruct (nth_error (inflight st) i) as [flat|]; [|reflexivity].
      rewrite resume_acceptance, handlePrediction_acceptance.
      unfold handlePrediction; cbn [lastAccepted lastAcceptTime].
      destruct (confident q); [|reflexivity].
      destruct (truthy p); [|reflexivity].
      destruct (_ || _); reflexivity. }
  split.
  - apply K. reflexivity.
  - rewrite resume_acceptance. apply K. reflexivity.
Qed.

Lemma acceptance_state_changes_on_commit_only_witness :
  acceptance (sendPayload_resume []
                (Body (Some (Label "A")) (Some (NotANumber c090)) 5000) initial)
  = (Some (Label "A"), 5000).
Proof.
  apply (acceptance_state_changes_on_commit_only initial "A" c090 5000);
    reflexivity.
Defined.

End AcceptanceGate.

(** ** TextBuffer: [appendLetter] *)

Module TextBuffer.

Import Client Spec.

Lemma substring_prefix (s t : string) :
  String.substring 0 (String.length s) (s ++ t) = s.
Proof.
  induction s as [|a s IH]; simpl.
  - destruct t; reflexivity.
  - rewrite IH. reflexivity.
Qed.

Lemma length_snoc (s : string) (c : ascii) :
  String.length (s ++ String c "") = S (String.length s).
Proof. induction s as [|a s IH]; simpl; [reflexivity | rewrite IH; reflexivity]. Qed.

(** C9. On label [del] the last character of the text is removed, and the
    empty text stays empty; on label [space] one space is appended; a letter
    is appended as it is. The three operations are total functions of the
    text, and [handlePrediction] changes the text by them alone: by
    [appendLetter] of the label when it commits, not at all when it
    rejects. *)
Theorem appendLetter_spec (text : string) (c : ascii)
    (prediction : option Prediction) (confidence : option Confidence) (now : Z)
    (st : State) :
  appendLetter (Label "del") (text ++ String c "") = text /\
  appendLetter (Label "del") "" = "" /\
  appendLetter (Label "space") text = text ++ " " /\
  String.length (appendLetter (Label "space") text) = S (String.length text) /\
  Forall (fun letter => appendLetter (Label letter) text = text ++ letter) letters /\
  typed (snd (handlePrediction prediction confidence now st))
  = match fst (handlePrediction prediction confidence now st) with
    | Commit label => appendLetter label (typed st)
    | Reject _ => typed st
    end.
Proof.
  repeat split.
  - unfold appendLetter, slice_0_m1. cbn [String.eqb Ascii.eqb Bool.eqb].
    rewrite length_snoc. simpl Nat.sub. rewrite Nat.sub_0_r.
    apply substring_prefix.
  - unfold appendLetter. cbn [String.eqb Ascii.eqb Bool.eqb]. apply length_snoc.
  - unfold letters. repeat constructor.
  - unfold handlePrediction.
    destruct (confident confidence); [|reflexivity].
    destruct (truthy prediction); [|reflexivity].
    destruct (_ || _); reflexivity.
Qed.

End TextBuffer.

(** ** Scheduler: the periodic callback and [sendPayload] *)

Module Scheduler.

Import IEEE IEEEFacts Client Spec.

(** *** What [handlePrediction] leaves alone *)

Lemma handlePrediction_frame prediction confidence now st :
  let st' := snd (handlePrediction prediction confidence now st) in
  lastFrameLandmarks st' = lastFrameLandmarks st /\
  lastSentLandmarks st' = lastSentLandmarks st /\
  inflight st' = inflight st /\
  sent st' = sent st.
Proof.
  unfold handlePrediction.
  destruct (confident confidence); [|repeat split].
  destruct (truthy prediction); [|repeat split].
  destruct (_ || _); repeat split.
Qed.

Lemma In_remove_nth {A} (v : A) (i : nat) : forall l : list A,
  In v (remove_nth i l) -> In v l.
Proof.
  induction i as [|i IH]; intros [|h t]; simpl; auto.
  intros [H|H]; [left; assumption | right; apply IH; assumption].
Qed.

(** *** Ticks while no response has arrived *)

Lemma tick_first_send (st : State) (v : list num) :
  lastFrameLandmarks st = Some v ->
  lastSentLandmarks st = None ->
  tick st = sendPayload_call v st.
Proof. intros Hf Hs. unfold tick. rewrite Hf, Hs. reflexivity. Qed.

Lemma ticks_pile_up (v : list num) (n : nat) : forall st,
  lastFrameLandmarks st = Some v ->
  lastSentLandmarks st = None ->
  inflight (run st (repeat Tick n)) = (inflight st ++ repeat v n)%list /\
  sent (run st (repeat Tick n)) = (sent st ++ repeat v n)%list /\
  lastSentLandmarks (run st (repeat Tick n)) = None.
Proof.
  induction n as [|n IH]; intros st Hf Hs; simpl repeat.
  - simpl. rewrite !app_nil_r. auto.
  - unfold run. cbn [fold_left step]. fold (run (tick st) (repeat Tick n)).
    rewrite (tick_first_send st v Hf Hs).
    destruct (IH (sendPayload_call v st) Hf Hs) as (I1 & I2 & I3).
    rewrite I1, I2, I3. cbn [sendPayload_call inflight sent].
    rewrite <- !app_assoc. auto.
Qed.

(** C1, as the claim has it, fails: two ticks on a present frame, with the
    first request unanswered, leave two requests unresolved. *)
Lemma at_most_one_outstanding_counterexample : ~ at_most_one_outstanding.
Proof.
  intros H. specialize (H [Results (Some [a_hand]); Tick; Tick]).
  vm_compute in H. lia.
Qed.

(** C1, amended. The page keeps no flag for a request in flight: a tick on
    a present frame that passes the distance test sends a request and adds
    it to those unresolved, whatever is already unresolved; and as the
    vector last sent is assigned only when a response is handled, [n] ticks
    on a present frame before any response send [n] requests, all of them
    unresolved together. *)
Theorem tick_sends_whatever_is_in_flight
    (st : State) (current : list num)
    (hand : list Landmark) (others : list (list Landmark)) (n : nat) :
  lastFrameLandmarks st = Some current ->
  shouldSubmit current (lastSentLandmarks st) = true ->
  inflight (tick st) = (inflight st ++ [current])%list /\
  sent (tick st) = (sent st ++ [current])%list /\
  inflight (run initial (Results (Some (hand :: others)) :: repeat Tick n))
  = repeat (flatten hand) n /\
  sent (run initial (Results (Some (hand :: others)) :: repeat Tick n))
  = repeat (flatten hand) n.
Proof.
  intros Hf Hs.
  assert (E : tick st = sendPayload_call current st).
  { unfold tick. rewrite Hf. unfold shouldSubmit, shouldSubmit_at in Hs.
    rewrite Hs. reflexivity. }
  rewrite E.
  destruct (ticks_pile_up (flatten hand) n
              (onResults (Some (hand :: others)) initial) eq_refl eq_refl)
    as (I1 & I2 & _).
  repeat split; assumption.
Qed.

Lemma tick_sends_whatever_is_in_flight_witness :
  let busy := run initial [Results (Some [a_hand]); Tick] in
  inflight busy = [flatten a_hand] /\
  inflight (tick busy) = [flatten a_hand; flatten a_hand].
Proof.
  split; [reflexivity|].
  apply (tick_sends_whatever_is_in_flight
           (run initial [Results (Some [a_hand]); Tick]) (flatten a_hand)
           a_hand [] 0); reflexivity.
Defined.

(** *** LastSent *)

Lemma sent_before_step (st : State) (e : Event) :
  sent_before st -> sent_before (step st e).
Proof.
  intros [Hi Hl]. destruct e as [r| |i o].
  - split; assumption.
  - simpl. unfold tick. destruct (lastFrameLandmarks st) as [cur|]; [|split; assumption].
    destruct (gt _ _); [|split; assumption].
    split; cbn [sendPayload_call inflight sent lastSentLandmarks].
    + intros v Hv. apply in_app_iff. apply in_app_iff in Hv.
      destruct Hv as [Hv|Hv]; [left; apply Hi; assumption | right; assumption].
    + intros v Hv. apply in_app_iff. left. apply Hl. assumption.
  - simpl. destruct (nth_error (inflight st) i) as [flat|] eqn:En; [|split; assumption].
    apply nth_error_In in En.
    destruct o as [m|m|p c now]; cbn [sendPayload_resume].
    + split; cbn [set_logArea inflight sent lastSentLandmarks]; [|assumption].
      intros v Hv. apply Hi. apply (In_remove_nth v i). assumption.
    + split; cbn [set_logArea inflight sent lastSentLandmarks]; [|assumption].
      intros v Hv. apply Hi. apply (In_remove_nth v i). assumption.
    + cbv zeta.
      match goal with |- context [snd (handlePrediction _ _ _ ?s)] =>
        destruct (handlePrediction_frame p c now s) as (_ & F2 & F3 & F4) end.
      destruct (toFixed_throws c);
        split; cbn [set_lastSentLandmarks set_logArea inflight sent lastSentLandmarks];
        rewrite ?F2, ?F3, F4; cbn [sent inflight lastSentLandmarks];
        try (intros v Hv; apply Hi; apply (In_remove_nth v i); assumption).
      * assumption.
      * intros v Hv. injection Hv as <-. apply Hi. assumption.
Qed.

Lemma sent_before_run (es : list Event) : forall st,
  sent_before st -> sent_before (run st es).
Proof.
  induction es as [|e es IH]; intros st H; [assumption|].
  apply (IH (step st e)). apply sent_before_step. assumption.
Qed.

(** C7, as the claim has it, fails. The vector last sent is assigned when a
    response is handled, not when a request is sent: until the first
    response it is absent although a vector was submitted, and when two
    requests are answered in the other order, the vector last sent ends as
    the one submitted first. *)
Lemma lastSent_is_last_submitted_counterexample : ~ lastSent_is_last_submitted.
Proof.
  intros H.
  specialize (H [Results (Some [a_hand]); Tick;
                 Results (Some [another_hand]); Tick;
                 Settle 1 (Body (Some (Label "A")) (Some (Number c090)) 1000);
                 Settle 0 (Body (Some (Label "B")) (Some (Number c090)) 1200)]).
  vm_compute in H. discriminate.
Qed.

(** C7, amended. The vector last sent is assigned in one place, the end of
    [sendPayload] after a response body was read and handled, where it
    becomes the argument of that call; the callbacks of MediaPipe and of the
    timer, the distance test among them, and the sending of a request leave
    it as it was, and so does a request that ends in an error, the
    exception of [toFixed] in [handlePrediction] among them. At every
    point of an execution it is absent or is the body of a request that was
    sent. *)
Theorem lastSent_set_on_response_only (st : State) (es : list Event) :
  (forall r, lastSentLandmarks (onResults r st) = lastSentLandmarks st) /\
  lastSentLandmarks (tick st) = lastSentLandmarks st /\
  (forall flat, lastSentLandmarks (sendPayload_call flat st) = lastSentLandmarks st) /\
  (forall flat message,
     lastSentLandmarks (sendPayload_resume flat (FetchRejected message) st)
     = lastSentLandmarks st) /\
  (forall flat message,
     lastSentLandmarks (sendPayload_resume flat (BodyRejected message) st)
     = lastSentLandmarks st) /\
  (forall flat prediction confidence now,
     lastSentLandmarks (sendPayload_resume flat (Body prediction confidence now) st)
     = if toFixed_throws confidence then lastSentLandmarks st else Some flat) /\
  match lastSentLandmarks (run initial es) with
  | Some v => In v (sent (run initial es))
  | None => True
  end.
Proof.
  repeat split.
  - unfold tick. destruct (lastFrameLandmarks st); [|reflexivity].
    destruct (gt _ _); reflexivity.
  - intros flat p c now. unfold sendPayload_resume. cbv zeta.
    destruct (handlePrediction_frame p c now st) as (_ & F2 & _).
    destruct (toFixed_throws c); [exact F2 | reflexivity].
  - destruct (sent_before_run es initial) as [_ H].
    + split; [intros v []| discriminate].
    + destruct (lastSentLandmarks (run initial es)); [apply H; reflexivity | exact I].
Qed.

(** *** An absent pose on the page *)

Lemma onResults_absent (st : State) :
  lastFrameLandmarks (onResults None st) = None /\
  lastFrameLandmarks (onResults (Some []) st) = None /\
  tick (onResults None st) = onResults None st /\
  tick (onResults (Some []) st) = onResults (Some []) st.
Proof. repeat split. Qed.

End Scheduler.

(** ** FeatureNormalizer: [one_image_to_vector] *)

Module Normalizer.

Import IEEE IEEEFacts Order OrderFacts Extremes Notebook NormalizerSpec PoseSpec.

(** *** The array operations, on landmarks *)

(** What rounding returns has the sign it was given. *)
Lemma binary_round_aux_sign prec emax s m e l :
  match binary_round_aux prec emax s m e l with
  | S754_zero s' | S754_infinity s' | S754_finite s' _ _ => s' = s
  | S754_nan => True
  end.
Proof.
  unfold binary_round_aux.
  destruct (shr_fexp prec emax m e l) as [mrs' e'].
  destruct (shr_fexp prec emax _ e' loc_Exact) as [mrs'' e''].
  destruct (shr_m mrs''); try exact I; try reflexivity.
  destruct (e'' <=? emax - prec); reflexivity.
Qed.

(** Adding a square to the accumulator [+0] gives the square. *)
Lemma add_zero_square (a : f32) :
  SFadd 53 1024 zero (mul a a) = mul a a.
Proof.
  unfold mul, zero.
  destruct a as [s|s| |s m e]; cbn [SFmul]; try rewrite xorb_nilpotent;
    try reflexivity.
  pose proof (binary_round_aux_sign 24 128 false (Zpos (m * m)) (e + e) loc_Exact) as H.
  destruct (binary_round_aux 24 128 false (Zpos (m * m)) (e + e) loc_Exact);
    try reflexivity.
  subst. reflexivity.
Qed.

Lemma norm_coords (p : Landmark) : norm (coords p) = euclidean_norm p.
Proof.
  unfold norm, dot, euclidean_norm, coords. cbn [combine fold_left fst snd].
  rewrite add_zero_square. reflexivity.
Qed.

Lemma to_array_coords (hand : list Landmark) : to_array hand = map coords hand.
Proof. reflexivity. Qed.

Lemma sub_row_coords (w : Landmark) (l : list Landmark) :
  sub_row (map coords l) (coords w) = map coords (map (centre w) l).
Proof. unfold sub_row. rewrite !map_map. reflexivity. Qed.

Lemma column_coords (l : list Landmark) :
  column 0 (map coords l) = map x l /\
  column 1 (map coords l) = map y l /\
  column 2 (map coords l) = map z l.
Proof. unfold column. rewrite !map_map. repeat split. Qed.

Lemma peak_to_peak_coords (l : list Landmark) :
  peak_to_peak (map coords l) = max_range l.
Proof.
  unfold peak_to_peak, ptp_axis0, max_range, range. cbn [map].
  destruct (column_coords l) as (-> & -> & ->). reflexivity.
Qed.

Lemma div_all_coords (s : f32) (l : list Landmark) :
  div_all (map coords l) s = map coords (map (scale_by s) l).
Proof. unfold div_all. rewrite !map_map. reflexivity. Qed.

Lemma normalised_coords (w : Landmark) (t : list Landmark) :
  normalised (map coords (w :: t)) (coords w) = map coords (normalise (w :: t)).
Proof.
  unfold normalised, normalise, normalise_with. cbn [nth].
  rewrite sub_row_coords, peak_to_peak_coords, div_all_coords. reflexivity.
Qed.

Lemma vec60_of_coords (l : list Landmark) :
  vec60_of (map coords l) = flat_map coords (tl l).
Proof.
  unfold vec60_of. destruct l as [|p l]; [reflexivity|]. cbn [map tl].
  symmetry. apply flat_map_concat_map.
Qed.

Lemma rows_at_coords (l : list Landmark) (ids : list nat) :
  Forall (fun i => (i < List.length l)%nat) ids ->
  rows_at (map coords l) ids = Some (map (fun i => coords (nth i l origin)) ids).
Proof.
  induction 1 as [|i ids Hi _ IH]; [reflexivity|].
  cbn [rows_at map]. rewrite IH.
  rewrite nth_error_map, (nth_error_nth' l origin Hi). reflexivity.
Qed.

Lemma length_normalise_with adjust (pose : list Landmark) :
  List.length (normalise_with adjust pose) = List.length pose.
Proof. unfold normalise_with. rewrite !length_map. reflexivity. Qed.

(** Twenty points flattened, by index. *)
Lemma flat_map_coords_index (pts : list Landmark) :
  List.length pts = 21%nat ->
  flat_map coords (tl pts)
  = map (fun k => nth (Nat.modulo k 3) (coords (nth (1 + Nat.div k 3) pts origin)) NaN)
        (seq 0 60).
Proof.
  intros H.
  do 21 (destruct pts as [|? pts]; [discriminate|]).
  destruct pts; [reflexivity | discriminate].
Qed.

Lemma one_image_to_vector_hand (img : Image) (w : Landmark)
    (t : list Landmark) (others : list (list Landmark)) :
  usable img = true ->
  multi_hand_landmarks img = (w :: t) :: others ->
  List.length (w :: t) = 21%nat ->
  one_image_to_vector img = Vector (FeatureNormalizer true (w :: t)).
Proof.
  intros Hu Hh Hlen. unfold usable in Hu. apply andb_true_iff in Hu.
  destruct Hu as [Hn Hr]. apply negb_true_iff in Hn.
  unfold one_image_to_vector. rewrite Hn, Hr, Hh. cbn [negb].
  rewrite to_array_coords. cbn [map].
  change (coords w :: map coords t) with (map coords (w :: t)).
  rewrite normalised_coords, vec60_of_coords, rows_at_coords.
  - rewrite map_map.
    unfold FeatureNormalizer, FeatureNormalizer_with, normalise, fingertips, tip_ids.
    do 2 f_equal. apply map_ext. intros i. apply norm_coords.
  - unfold normalise. rewrite length_normalise_with, Hlen.
    unfold tip_ids. repeat constructor.
Qed.

(** *** The result, step by step *)

Lemma map_nth_seq {A B} (f : A -> B) (d : A) (l : list A) :
  map (fun j => f (nth j l d)) (seq 0 (List.length l)) = map f l.
Proof.
  induction l as [|a l IH]; [reflexivity|].
  cbn [List.length seq map nth]. f_equal.
  rewrite <- seq_shift, map_map. exact IH.
Qed.

Lemma axis_map (w : Landmark) (t : list Landmark) (a : nat) :
  axis (w :: t) a
  = map (fun p => sub (coordinate a p) (coordinate a w)) (w :: t).
Proof.
  unfold axis, centred.
  exact (map_nth_seq (fun p => SFsub 24 128 (coordinate a p) (coordinate a w))
                     no_point (w :: t)).
Qed.

Lemma columns_axes (w : Landmark) (t : list Landmark) :
  map x (map (centre w) (w :: t)) = axis (w :: t) 0 /\
  map y (map (centre w) (w :: t)) = axis (w :: t) 1 /\
  map z (map (centre w) (w :: t)) = axis (w :: t) 2.
Proof. rewrite !axis_map, !map_map. repeat split. Qed.

Lemma finite_coordinate (pose : list Landmark) (p : Landmark) (a : nat) :
  finite_pose pose = true -> In p pose -> is_finite (coordinate a p) = true.
Proof.
  intros H Hin. unfold finite_pose in H. rewrite forallb_forall in H.
  specialize (H p Hin). apply andb_true_iff in H. destruct H as [H Hz].
  apply andb_true_iff in H. destruct H as [Hx Hy].
  destruct a as [|[|a]]; assumption.
Qed.

Lemma axis_not_nan (w : Landmark) (t : list Landmark) (a : nat) :
  finite_pose (w :: t) = true ->
  Forall (fun c => is_nan c = false) (axis (w :: t) a) /\
  In (S754_zero false) (axis (w :: t) a).
Proof.
  intros H. rewrite axis_map. split.
  - apply Forall_forall. intros c Hc. apply in_map_iff in Hc.
    destruct Hc as (p & <- & Hp). apply sub_finite_not_nan.
    + apply (finite_coordinate (w :: t)); assumption.
    + apply (finite_coordinate (w :: t)); [assumption | left; reflexivity].
  - cbn [map]. left. unfold sub. apply sub_diag_finite.
    apply (finite_coordinate (w :: t)); [assumption | left; reflexivity].
Qed.

(** The range that the code computes for an axis is the range of the axis,
    and is not NaN. *)
Lemma range_is_range (w : Landmark) (t : list Landmark) (a : nat) :
  finite_pose (w :: t) = true ->
  is_range (range (axis (w :: t) a)) (axis (w :: t) a) /\
  is_nan (range (axis (w :: t) a)) = false.
Proof.
  intros H. destruct (axis_not_nan w t a H) as [Hn Hz].
  assert (Hne : axis (w :: t) a <> []).
  { intros E. rewrite E in Hz. destruct Hz. }
  pose proof (np_max_greatest _ Hne Hn) as G.
  pose proof (np_min_least _ Hne Hn) as L.
  split.
  - exists (np_max (axis (w :: t) a)), (np_min (axis (w :: t) a)).
    repeat split; try apply G; try apply L.
  - unfold range, sub. apply sub_across_zero_not_nan.
    + destruct G as [_ G]. rewrite Forall_forall in G. apply G. exact Hz.
    + destruct L as [_ L]. rewrite Forall_forall in L. apply L. exact Hz.
Qed.

Lemma max_range_is_max_range (w : Landmark) (t : list Landmark) :
  finite_pose (w :: t) = true ->
  is_max_range (max_range (map (centre w) (w :: t))) (w :: t).
Proof.
  intros H. unfold max_range.
  destruct (columns_axes w t) as (-> & -> & ->).
  destruct (range_is_range w t 0 H) as [R0 N0].
  destruct (range_is_range w t 1 H) as [R1 N1].
  destruct (range_is_range w t 2 H) as [R2 N2].
  exists (range (axis (w :: t) 0)), (range (axis (w :: t) 1)),
         (range (axis (w :: t) 2)).
  repeat split; try assumption; try apply np_max_greatest;
    try discriminate; repeat constructor; assumption.
Qed.

(** The maximum range is determined up to the sign of a zero, and the
    scale altogether. *)
Lemma greatest_same (M M' : f32) (c : list f32) :
  greatest M c -> greatest M' c -> same M M'.
Proof.
  intros [I1 F1] [I2 F2]. rewrite Forall_forall in F1, F2.
  apply SFleb_antisym; [apply F2 | apply F1]; assumption.
Qed.

Lemma least_same (m m' : f32) (c : list f32) :
  least m c -> least m' c -> same m m'.
Proof.
  intros [I1 F1] [I2 F2]. rewrite Forall_forall in F1, F2.
  apply SFleb_antisym; [apply F1 | apply F2]; assumption.
Qed.

Lemma sub_same (M M' m m' : f32) :
  same M M' -> same m m' -> same (SFsub 24 128 M m) (SFsub 24 128 M' m').
Proof.
  intros [-> | [Z1 Z2]] [-> | [Z3 Z4]].
  - left; reflexivity.
  - destruct m as [sm| | |]; try discriminate.
    destruct m' as [sm'| | |]; try discriminate.
    destruct M' as [s| | |]; cbn [SFsub]; try (left; reflexivity).
    right. destruct s, sm, sm'; split; reflexivity.
  - destruct M as [sM| | |]; try discriminate.
    destruct M' as [sM'| | |]; try discriminate.
    destruct m' as [s| | |]; cbn [SFsub]; try (left; reflexivity).
    right. destruct sM, sM', s; split; reflexivity.
  - destruct M as [sM| | |]; try discriminate.
    destruct M' as [sM'| | |]; try discriminate.
    destruct m as [sm| | |]; try discriminate.
    destruct m' as [sm'| | |]; try discriminate.
    right. destruct sM, sM', sm, sm'; split; reflexivity.
Qed.

Lemma is_range_same (r r' : f32) (c : list f32) :
  is_range r c -> is_range r' c -> same r r'.
Proof.
  intros (M & m & G & L & ->) (M' & m' & G' & L' & ->).
  apply sub_same; [exact (greatest_same _ _ _ G G') | exact (least_same _ _ _ L L')].
Qed.

Lemma SFleb_same (a a' b b' : f32) :
  same a a' -> same b b' -> SFleb a b = SFleb a' b'.
Proof.
  intros [-> | [Z1 Z2]] [-> | [Z3 Z4]]; [reflexivity| | |].
  - destruct b as [sb| | |]; try discriminate.
    destruct b' as [sb'| | |]; try discriminate.
    destruct a'; reflexivity.
  - destruct a as [sa| | |]; try discriminate.
    destruct a' as [sa'| | |]; try discriminate.
    destruct b'; reflexivity.
  - destruct a as [sa| | |]; try discriminate.
    destruct a' as [sa'| | |]; try discriminate.
    destruct b as [sb| | |]; try discriminate.
    destruct b' as [sb'| | |]; try discriminate.
    reflexivity.
Qed.

Lemma same_sym (a b : f32) : same a b -> same b a.
Proof. intros [-> | [H1 H2]]; [left; reflexivity | right; split; assumption]. Qed.

Lemma same_refl (a : f32) : same a a.
Proof. left; reflexivity. Qed.

Lemma below_greatest (r r' a b c a' b' c' : f32) :
  same a a' -> same b b' -> same c c' ->
  In r [a; b; c] -> Forall (fun v => SFleb v r' = true) [a'; b'; c'] ->
  SFleb r r' = true.
Proof.
  intros Sa Sb Sc Hin F.
  inversion F as [|? ? Fa F1]; subst. inversion F1 as [|? ? Fb F2]; subst.
  inversion F2 as [|? ? Fc _]; subst.
  destruct Hin as [<- | [<- | [<- | []]]].
  - rewrite (SFleb_same a a' r' r' Sa (same_refl r')). exact Fa.
  - rewrite (SFleb_same b b' r' r' Sb (same_refl r')). exact Fb.
  - rewrite (SFleb_same c c' r' r' Sc (same_refl r')). exact Fc.
Qed.

Lemma scale_of_same (r r' : f32) : same r r' -> scale_of r = scale_of r'.
Proof.
  intros [-> | [Z1 Z2]]; [reflexivity|].
  destruct r; try discriminate. destruct r'; try discriminate. reflexivity.
Qed.

Lemma max_range_unique (pose : list Landmark) (r r' : f32) :
  is_max_range r pose -> is_max_range r' pose -> scale_of r' = scale_of r.
Proof.
  intros (a & b & c & Ra & Rb & Rc & [I F]) (a' & b' & c' & Ra' & Rb' & Rc' & [I' F']).
  pose proof (is_range_same _ _ _ Ra Ra') as Sa.
  pose proof (is_range_same _ _ _ Rb Rb') as Sb.
  pose proof (is_range_same _ _ _ Rc Rc') as Sc.
  apply scale_of_same. apply SFleb_antisym.
  - exact (below_greatest r' r a' b' c' a b c (same_sym _ _ Sa) (same_sym _ _ Sb)
             (same_sym _ _ Sc) I' F).
  - exact (below_greatest r r' a b c a' b' c' Sa Sb Sc I F').
Qed.

Lemma or_one_scale_of (r : f32) : or_one r = scale_of r.
Proof. destruct r; reflexivity. Qed.

(** The flattened points and the five norms, element by element, for any
    scale. *)
Lemma features_of_points (hand : list Landmark) (s : f32) :
  List.length hand = 21%nat ->
  let pts := map (scale_by s) (map (centre (nth 0 hand origin)) hand) in
  (flat_map coords (tl pts) = features60 hand s) /\
  map (fun i => euclidean_norm (nth i pts origin)) fingertips
  = map (tip_norm hand s) [4; 8; 12; 16; 20]%nat.
Proof.
  intros H.
  do 21 (destruct hand as [|? hand]; [discriminate|]).
  destruct hand; [|discriminate].
  split; reflexivity.
Qed.

(** C4. For a valid pose, 21 points with finite coordinates, in a usable
    image, the function returns the vector determined as follows. Point 0
    is subtracted from the 21 points; along each axis the peak-to-peak
    range is the greatest centred coordinate minus the least; [r] is the
    greatest of the three ranges and the scale is [r], or 1 when [r] is
    zero; element [k] of the first 60 is the centred coordinate [k mod 3]
    of point [1 + k / 3] divided by the scale, so that the points come in
    index order, each with its three axes, and no coordinate of point 0 is
    there; the last 5 elements are the Euclidean norms of the normalised
    points 4, 8, 12, 16 and 20. The 60 elements are [vec60] of the code,
    the vector returned has 65, and any [r'] that is the greatest of the
    three ranges gives the same scale. *)
Theorem one_image_to_vector_spec (img : Image) (hand : list Landmark)
    (others : list (list Landmark)) :
  usable img = true ->
  multi_hand_landmarks img = hand :: others ->
  List.length hand = 21%nat ->
  finite_pose hand = true ->
  exists r : f32,
    is_max_range r hand /\
    one_image_to_vector img = Vector (features65 hand (scale_of r)) /\
    vec60_of (normalised (to_array hand) (hd [] (to_array hand)))
    = features60 hand (scale_of r) /\
    List.length (features60 hand (scale_of r)) = 60%nat /\
    List.length (features65 hand (scale_of r)) = 65%nat /\
    (forall r', is_max_range r' hand -> scale_of r' = scale_of r).
Proof.
  intros Hu Hh Hlen Hfin.
  destruct hand as [|w t]; [discriminate|].
  exists (max_range (map (centre w) (w :: t))).
  pose proof (max_range_is_max_range w t Hfin) as M.
  destruct (features_of_points (w :: t)
              (scale_of (max_range (map (centre w) (w :: t)))) Hlen) as [F60 F5].
  cbn [nth] in F60, F5.
  split; [exact M|].
  split.
  { rewrite (one_image_to_vector_hand img w t others Hu Hh Hlen).
    unfold FeatureNormalizer, FeatureNormalizer_with, normalise_with. cbn [nth].
    rewrite or_one_scale_of, F60, F5. reflexivity. }
  split.
  { rewrite to_array_coords. cbn [map hd].
    change (coords w :: map coords t) with (map coords (w :: t)).
    rewrite normalised_coords, vec60_of_coords.
    unfold normalise, normalise_with. cbn [nth].
    rewrite or_one_scale_of. exact F60. }
  split; [unfold features60; rewrite length_map, length_seq; reflexivity|].
  split.
  { unfold features65, features60.
    rewrite length_app, !length_map, length_seq. reflexivity. }
  intros r' M'. apply (max_range_unique (w :: t)); assumption.
Qed.

Lemma one_image_to_vector_spec_witness :
  exists r : f32,
    is_max_range r a_pose /\
    one_image_to_vector an_image = Vector (features65 a_pose (scale_of r)).
Proof.
  destruct (one_image_to_vector_spec an_image a_pose [] eq_refl eq_refl eq_refl eq_refl)
    as (r & H1 & H2 & _).
  exists r. split; assumption.
Defined.

End Normalizer.

(** ** The guard on the scale *)

Module ScaleGuard.

Import IEEE IEEEFacts Notebook NormalizerSpec Normalizer.

(** Centring copies of one finite point gives rows of zeros. *)
Lemma sub_row_repeat (p : Landmark) (n : nat) :
  is_finite (x p) = true -> is_finite (y p) = true -> is_finite (z p) = true ->
  sub_row (to_array (repeat p n)) (coords p) = repeat [zero; zero; zero] n.
Proof.
  intros Hx Hy Hz. unfold sub_row, to_array. rewrite map_map, map_repeat.
  unfold coords. cbn [combine map fst snd]. unfold sub.
  rewrite !sub_diag_finite by assumption. reflexivity.
Qed.

(** C8. For a pose of 21 copies of one point with finite coordinates, the
    centred array is all zeros, its maximum peak-to-peak range is zero and
    is replaced by 1, and the function returns the vector of 65 zeros: no
    element is NaN or infinite. *)
Theorem degenerate_pose_gives_zeros (img : Image) (p : Landmark)
    (others : list (list Landmark)) :
  usable img = true ->
  multi_hand_landmarks img = repeat p 21 :: others ->
  is_finite (x p) = true -> is_finite (y p) = true -> is_finite (z p) = true ->
  peak_to_peak (sub_row (to_array (repeat p 21)) (coords p)) = zero /\
  or_one (peak_to_peak (sub_row (to_array (repeat p 21)) (coords p))) = one /\
  normalised (to_array (repeat p 21)) (coords p) = repeat [zero; zero; zero] 21 /\
  one_image_to_vector img = Vector (repeat zero 65) /\
  forallb is_finite (repeat zero 65) = true.
Proof.
  intros Hu Hh Hx Hy Hz.
  pose proof (sub_row_repeat p 21 Hx Hy Hz) as K.
  assert (N : normalised (to_array (repeat p 21)) (coords p)
              = repeat [zero; zero; zero] 21).
  { unfold normalised. rewrite K. vm_compute. reflexivity. }
  rewrite K. repeat split.
  - exact N.
  - unfold usable in Hu. apply andb_true_iff in Hu.
    destruct Hu as [Hn Hr]. apply negb_true_iff in Hn.
    unfold one_image_to_vector. rewrite Hn, Hr, Hh. cbn [negb].
    change (to_array (repeat p 21)) with (coords p :: to_array (repeat p 20)).
    cbv beta iota zeta.
    change (coords p :: to_array (repeat p 20)) with (to_array (repeat p 21)).
    rewrite N. vm_compute. reflexivity.
Qed.

Lemma degenerate_pose_gives_zeros_witness :
  one_image_to_vector degenerate = Vector (repeat zero 65).
Proof.
  apply (degenerate_pose_gives_zeros degenerate a_point []); reflexivity.
Defined.

End ScaleGuard.

(** ** More on the distance [l2] *)

Module Distance.

Import IEEE IEEEFacts Client Trace.

(** *** Signs through rounding *)

Lemma binary_round_aux_opp prec emax s m e l :
  binary_round_aux prec emax (negb s) m e l
  = SFopp (binary_round_aux prec emax s m e l).
Proof.
  unfold binary_round_aux.
  destruct (shr_fexp prec emax m e l) as [mrs' e'].
  destruct (shr_fexp prec emax _ e' loc_Exact) as [mrs'' e''].
  destruct (shr_m mrs''); try reflexivity.
  destruct (e'' <=? emax - prec); reflexivity.
Qed.

Lemma binary_round_opp prec emax s m e :
  binary_round prec emax (negb s) m e = SFopp (binary_round prec emax s m e).
Proof.
  unfold binary_round.
  destruct (shl_align m e _) as [mz ez]. apply binary_round_aux_opp.
Qed.

Lemma binary_round_sign prec emax s m e :
  match binary_round prec emax s m e with
  | S754_zero s' | S754_infinity s' | S754_finite s' _ _ => s' = s
  | S754_nan => True
  end.
Proof.
  unfold binary_round.
  destruct (shl_align m e _) as [mz ez]. apply Normalizer.binary_round_aux_sign.
Qed.

(** [b - a] is the opposite of [a - b], or both are zeros. *)
Lemma sub_swap prec emax (a b : spec_float) :
  SFsub prec emax b a = SFopp (SFsub prec emax a b) \/
  (is_zero (SFsub prec emax a b) = true /\ is_zero (SFsub prec emax b a) = true).
Proof.
  destruct a as [sa|sa| |sa ma ea], b as [sb|sb| |sb mb eb];
    try (left; reflexivity);
    try (destruct sa, sb; simpl; auto; fail);
    try (destruct sa; simpl; auto; fail);
    try (destruct sb; simpl; auto; fail).
  cbn [SFsub]. rewrite (Z.min_comm eb ea).
  set (ez := Z.min ea eb).
  set (za := cond_Zopp sa (Zpos (fst (shl_align ma ea ez)))).
  set (zb := cond_Zopp sb (Zpos (fst (shl_align mb eb ez)))).
  replace (zb - za) with (- (za - zb)) by lia.
  destruct (za - zb) as [|k|k]; cbn [Z.opp binary_normalize].
  - right. split; reflexivity.
  - left. apply (binary_round_opp prec emax false).
  - left. change false with (negb true) at 1.
    rewrite binary_round_opp. reflexivity.
Qed.

Lemma mul_opp_opp prec emax (d : spec_float) :
  SFmul prec emax (SFopp d) (SFopp d) = SFmul prec emax d d.
Proof. destruct d as [s|s| |s m e]; try reflexivity; destruct s; reflexivity. Qed.

Lemma mul_zero_zero prec emax (c d : spec_float) :
  is_zero c = true -> is_zero d = true ->
  SFmul prec emax c c = SFmul prec emax d d.
Proof.
  destruct c as [sc| | |]; try discriminate.
  destruct d as [sd| | |]; try discriminate.
  destruct sc, sd; reflexivity.
Qed.

(** The squared difference does not depend on the order. *)
Lemma sq_sub_comm (a b : num) :
  mul (sub a b) (sub a b) = mul (sub b a) (sub b a).
Proof.
  unfold mul, sub. destruct (sub_swap 53 1024 a b) as [E|[Za Zb]].
  - rewrite E. symmetry. apply mul_opp_opp.
  - apply mul_zero_zero; assumption.
Qed.

Lemma l2_sum_from_comm (a : list num) : forall (b : list num) (s : num),
  fold_left (fun sum ab => let d := sub (fst ab) (snd ab) in add sum (mul d d))
            (combine a b) s
  = fold_left (fun sum ab => let d := sub (fst ab) (snd ab) in add sum (mul d d))
              (combine b a) s.
Proof.
  induction a as [|x a IH]; intros [|y b] s; try reflexivity.
  cbn [combine fold_left fst snd]. rewrite (sq_sub_comm x y). apply IH.
Qed.

(** X1. The distance is symmetric: [l2(a, b)] and [l2(b, a)] are the same
    number, for all arrays and for [null]. *)
Theorem l2_symmetric (a b : option (list num)) : l2 a b = l2 b a.
Proof.
  destruct a as [a|], b as [b|]; try reflexivity.
  unfold l2. rewrite (Nat.eqb_sym (List.length b) (List.length a)).
  destruct (Nat.eqb (List.length a) (List.length b)) eqn:E; [|reflexivity].
  apply Nat.eqb_eq in E. cbn [negb]. rewrite <- E.
  unfold l2_sum. rewrite l2_sum_from_comm. reflexivity.
Qed.

(** *** The sign of the distance *)

Lemma sq_not_negative (d : num) : not_negative (mul d d) = true.
Proof.
  unfold mul. destruct d as [s|s| |s m e]; cbn [SFmul not_negative];
    try rewrite xorb_nilpotent; try reflexivity.
  pose proof (Normalizer.binary_round_aux_sign 53 1024 false
                (Zpos (m * m)) (e + e) loc_Exact) as H.
  destruct (binary_round_aux 53 1024 false (Zpos (m * m)) (e + e) loc_Exact);
    try reflexivity; subst; reflexivity.
Qed.

Lemma add_not_negative (s q : num) :
  not_negative s = true -> not_negative q = true -> not_negative (add s q) = true.
Proof.
  unfold add.
  destruct s as [[|]|[|]| |[|] ms es]; try discriminate;
    destruct q as [[|]|[|]| |[|] mq eq]; try discriminate;
    intros _ _; try reflexivity.
  cbn [SFadd cond_Zopp].
  set (k := Zpos _ + Zpos _).
  assert (Hk : 0 < k) by (unfold k; lia).
  destruct k as [|p|p]; try lia. cbn [binary_normalize].
  pose proof (binary_round_sign 53 1024 false p (Z.min es eq)) as H.
  destruct (binary_round 53 1024 false p (Z.min es eq));
    try reflexivity; subst; reflexivity.
Qed.

Lemma of_nat_not_negative (n : nat) : not_negative (of_nat n) = true.
Proof.
  unfold of_nat, of_Z. destruct (Z.of_nat n) as [|p|p] eqn:E; try lia.
  - reflexivity.
  - cbn [binary_normalize].
    pose proof (binary_round_sign 53 1024 false p 0) as H.
    destruct (binary_round 53 1024 false p 0); try reflexivity; subst; reflexivity.
Qed.

Lemma div_not_negative (s n : num) :
  not_negative s = true -> not_negative n = true -> not_negative (div s n) = true.
Proof.
  unfold div.
  destruct s as [[|]|[|]| |[|] ms es]; try discriminate;
    destruct n as [[|]|[|]| |[|] mn en]; try discriminate;
    intros _ _; try reflexivity.
  cbn [SFdiv xorb].
  destruct (SFdiv_core_binary 53 1024 (Zpos ms) es (Zpos mn) en) as [[mz ez] lz].
  pose proof (Normalizer.binary_round_aux_sign 53 1024 false mz ez lz) as H.
  destruct (binary_round_aux 53 1024 false mz ez lz);
    try reflexivity; subst; reflexivity.
Qed.

Lemma sqrt_not_negative (s : num) :
  not_negative s = true -> not_negative (sqrt s) = true.
Proof.
  unfold sqrt.
  destruct s as [[|]|[|]| |[|] ms es]; try discriminate; intros _;
    try reflexivity.
  cbn [SFsqrt].
  destruct (SFsqrt_core_binary 53 1024 (Zpos ms) es) as [[mz ez] lz].
  pose proof (Normalizer.binary_round_aux_sign 53 1024 false mz ez lz) as H.
  destruct (binary_round_aux 53 1024 false mz ez lz);
    try reflexivity; subst; reflexivity.
Qed.

Lemma l2_sum_from_not_negative (ab : list (num * num)) : forall s,
  not_negative s = true ->
  not_negative
    (fold_left (fun sum ab => let d := sub (fst ab) (snd ab) in add sum (mul d d))
               ab s) = true.
Proof.
  induction ab as [|p ab IH]; intros s Hs; cbn [fold_left].
  - assumption.
  - apply IH. apply add_not_negative; [assumption | apply sq_not_negative].
Qed.

(** X2. The distance is never negative: [l2] returns [+0], a positive
    number, [Infinity] or NaN, never a negative number and never [-0]. So
    with a threshold that is not negative, only a distance that is a
    number above it sends. *)
Theorem l2_not_negative (a b : option (list num)) : not_negative (l2 a b) = true.
Proof.
  destruct a as [a|], b as [b|]; try reflexivity.
  unfold l2. destruct (negb _); [reflexivity|].
  apply sqrt_not_negative. apply div_not_negative.
  - apply l2_sum_from_not_negative. reflexivity.
  - apply of_nat_not_negative.
Qed.

(** *** NaN in a vector *)

Lemma l2_sum_from_nan (ab : list (num * num)) :
  fold_left (fun sum ab => let d := sub (fst ab) (snd ab) in add sum (mul d d))
            ab NaN = NaN.
Proof.
  induction ab as [|p ab IH]; cbn [fold_left]; [reflexivity|].
  change (add NaN ?q) with NaN. exact IH.
Qed.

Lemma sq_nan_l (y : num) : mul (sub NaN y) (sub NaN y) = NaN.
Proof. reflexivity. Qed.

Lemma sq_nan_r (x : num) : mul (sub x NaN) (sub x NaN) = NaN.
Proof. unfold mul, sub. destruct x; reflexivity. Qed.

Lemma add_nan_r (s : num) : add s NaN = NaN.
Proof. unfold add. destruct s; reflexivity. Qed.

Lemma is_nan_eq (x : num) : is_nan x = true -> x = NaN.
Proof. destruct x; try discriminate; reflexivity. Qed.

Lemma l2_sum_from_has_nan (a : list num) : forall (b : list num) (s : num),
  List.length a = List.length b ->
  has_nan a || has_nan b = true ->
  fold_left (fun sum ab => let d := sub (fst ab) (snd ab) in add sum (mul d d))
            (combine a b) s = NaN.
Proof.
  induction a as [|x a IH]; intros [|y b] s Hlen H; try discriminate.
  cbn [combine fold_left fst snd]. cbn [has_nan existsb] in H.
  destruct (is_nan x) eqn:Ex.
  { apply is_nan_eq in Ex. subst x. rewrite sq_nan_l, add_nan_r.
    apply l2_sum_from_nan. }
  destruct (is_nan y) eqn:Ey.
  { apply is_nan_eq in Ey. subst y. rewrite sq_nan_r, add_nan_r.
    apply l2_sum_from_nan. }
  apply IH; [injection Hlen; auto | exact H].
Qed.

(** X3. When the frame or the vector last sent holds a NaN and the two have
    one length, the distance is NaN and the periodic callback sends
    nothing: [NaN > THRESHOLD] is false. In particular, once a vector with
    a NaN is the vector last sent, no frame of that length passes the
    test. *)
Theorem nan_blocks_sending (st : State) (current last : list num) :
  lastFrameLandmarks st = Some current ->
  lastSentLandmarks st = Some last ->
  List.length current = List.length last ->
  has_nan current || has_nan last = true ->
  l2 (Some current) (Some last) = NaN /\ tick st = st.
Proof.
  intros Hf Hs Hlen Hn.
  assert (E : l2 (Some current) (Some last) = NaN).
  { unfold l2. rewrite Hlen, Nat.eqb_refl. cbn [negb].
    replace (l2_sum current last) with NaN; [reflexivity|].
    symmetry. exact (l2_sum_from_has_nan current last zero Hlen Hn). }
  split; [exact E|].
  unfold tick. rewrite Hf, Hs, E. reflexivity.
Qed.

Lemma nan_blocks_sending_witness :
  let st := {| lastFrameLandmarks := Some [zero; CONF_THRESHOLD];
               lastSentLandmarks := Some [NaN; zero];
               lastAccepted := None; lastAcceptTime := 0; typed := "";
               logArea := LogEmpty; inflight := []; sent := [] |} in
  l2 (Some [zero; CONF_THRESHOLD]) (Some [NaN; zero]) = NaN /\ tick st = st.
Proof.
  apply (nan_blocks_sending
           {| lastFrameLandmarks := Some [zero; CONF_THRESHOLD];
              lastSentLandmarks := Some [NaN; zero];
              lastAccepted := None; lastAcceptTime := 0; typed := "";
              logArea := LogEmpty; inflight := []; sent := [] |}
           [zero; CONF_THRESHOLD] [NaN; zero]); reflexivity.
Defined.

End Distance.

(** ** Executions of the page: what is sent, and when *)

Module Session.

Import IEEE IEEEFacts Client Spec Trace.

Lemma flatten_length (hand : list Landmark) :
  List.length (flatten hand) = (3 * List.length hand)%nat.
Proof.
  unfold flatten. induction hand as [|p hand IH]; [reflexivity|].
  cbn [flat_map List.length app]. rewrite IH. lia.
Qed.

(** X4. The array sent for a hand holds its landmarks in order, three
    numbers each, and nothing else: two hands with the same array are the
    same hand, and the array of [n] landmarks has [3 n] numbers, 63 for
    the 21 of MediaPipe. *)
Theorem flatten_injective (a b : list Landmark) :
  flatten a = flatten b ->
  a = b /\ List.length (flatten a) = (3 * List.length a)%nat.
Proof.
  intros H. split; [|apply flatten_length].
  revert b H. unfold flatten.
  induction a as [|[ax ay az] a IH]; intros [|[bx by_ bz] b] H;
    try discriminate; [reflexivity|].
  cbn [flat_map app lx ly lz] in H. injection H as -> -> -> H.
  f_equal. apply IH. exact H.
Qed.

Lemma flatten_injective_witness :
  a_hand = a_hand /\ List.length (flatten a_hand) = 3%nat.
Proof. apply (flatten_injective a_hand a_hand). reflexivity. Defined.

(** *** Where a request body comes from *)

Lemma hands_cons (e : Event) (es : list Event) :
  hands (e :: es) = (hands [e] ++ hands es)%list.
Proof. destruct e as [[[|h o]|]| |i o]; reflexivity. Qed.

Lemma from_hands_step (F : list (list Landmark)) (st : State) (e : Event) :
  from_hands F st -> from_hands (F ++ hands [e]) (step st e).
Proof.
  intros [Hs Hf]. destruct e as [r| |i o].
  - split.
    + intros v Hv. rewrite map_app. apply in_or_app. left. apply Hs. exact Hv.
    + destruct r as [[|h o]|]; cbn [step onResults lastFrameLandmarks];
        try discriminate.
      intros v Hv. injection Hv as <-. rewrite map_app. apply in_or_app.
      right. left. reflexivity.
  - cbn [hands]. rewrite app_nil_r. cbn [step]. unfold tick.
    destruct (lastFrameLandmarks st) as [cur|] eqn:Ef;
      [|split; [exact Hs | rewrite Ef; exact Hf]].
    destruct (gt _ _); [|split; [exact Hs | rewrite Ef; exact Hf]].
    split; cbn [sendPayload_call sent lastFrameLandmarks].
    + intros v Hv. apply in_app_or in Hv. destruct Hv as [Hv|[<-|[]]].
      * apply Hs. exact Hv.
      * apply Hf. reflexivity.
    + rewrite Ef. exact Hf.
  - cbn [hands]. rewrite app_nil_r. cbn [step].
    destruct (nth_error (inflight st) i) as [flat|]; [|split; assumption].
    destruct o as [m|m|p c now]; cbn [sendPayload_resume];
      try (split; assumption).
    cbv zeta.
    match goal with |- context [snd (handlePrediction _ _ _ ?s)] =>
      destruct (Scheduler.handlePrediction_frame p c now s) as (F1 & _ & _ & F4) end.
    destruct (toFixed_throws c);
      split; cbn [set_lastSentLandmarks set_logArea sent lastFrameLandmarks];
      rewrite ?F4, ?F1; assumption.
Qed.

Lemma from_hands_run (es : list Event) : forall F st,
  from_hands F st -> from_hands (F ++ hands es) (run st es).
Proof.
  induction es as [|e es IH]; intros F st H.
  - rewrite app_nil_r. exact H.
  - rewrite hands_cons, app_assoc. apply (IH _ (step st e)).
    apply from_hands_step. exact H.
Qed.

(** X5. Whatever the events, every request body that the page has sent is
    the flattened first hand of a MediaPipe result that came before; the
    page never sends a vector of its own making, and each body has three
    numbers per landmark. *)
Theorem sent_comes_from_a_result (es : list Event) (v : list num) :
  In v (sent (run initial es)) ->
  exists hand, In hand (hands es) /\ v = flatten hand /\
               List.length v = (3 * List.length hand)%nat.
Proof.
  intros H.
  destruct (from_hands_run es [] initial) as [Hs _].
  { split; [intros w []| discriminate]. }
  apply Hs in H. apply in_map_iff in H. destruct H as (hand & E & Hin).
  exists hand. subst v. repeat split; [exact Hin | apply flatten_length].
Qed.

Lemma sent_comes_from_a_result_witness :
  exists hand,
    In hand (hands [Results (Some [a_hand]); Tick]) /\
    flatten a_hand = flatten hand /\
    List.length (flatten a_hand) = (3 * List.length hand)%nat.
Proof.
  apply (sent_comes_from_a_result [Results (Some [a_hand]); Tick] (flatten a_hand)).
  left. reflexivity.
Defined.

(** *** A pose that is held *)

Lemma tick_same (st : State) (v : list num) :
  lastFrameLandmarks st = Some v -> lastSentLandmarks st = Some v ->
  tick st = st.
Proof.
  intros Hf Hs. unfold tick. rewrite Hf, Hs.
  change (gt (l2 (Some v) (Some v)) THRESHOLD)
    with (SFltb THRESHOLD (l2 (Some v) (Some v))).
  rewrite not_above_nonneg; [reflexivity | reflexivity | apply StabilityGate.l2_self].
Qed.

Lemma held_run (hand : list Landmark) (es : list Event) : forall st,
  Forall (holds hand) es ->
  lastFrameLandmarks st = Some (flatten hand) ->
  lastSentLandmarks st = Some (flatten hand) ->
  run st es = st.
Proof.
  induction es as [|e es IH]; intros st H Hf Hs; [reflexivity|].
  inversion H as [|e' es' He Hes]; subst.
  assert (E : step st e = st).
  { destruct He as [->|[others ->]].
    - apply (tick_same st (flatten hand)); assumption.
    - cbn [step]. unfold onResults. rewrite <- Hf. destruct st; reflexivity. }
  unfold run. cbn [fold_left]. rewrite E. apply IH; assumption.
Qed.

Lemma unsent_run (hand : list Landmark) (es : list Event) : forall st,
  Forall (holds hand) es ->
  lastFrameLandmarks st = Some (flatten hand) ->
  lastSentLandmarks st = None ->
  sent (run st es)
  = (sent st ++ repeat (flatten hand) (ticks es))%list /\
  lastSentLandmarks (run st es) = None.
Proof.
  induction es as [|e es IH]; intros st H Hf Hs.
  - cbn [ticks filter List.length repeat run fold_left]. rewrite app_nil_r. auto.
  - inversion H as [|e' es' He Hes]; subst.
    unfold run. cbn [fold_left]. fold (run (step st e) es).
    destruct He as [->|[others ->]].
    + cbn [step]. rewrite (Scheduler.tick_first_send st (flatten hand) Hf Hs).
      destruct (IH (sendPayload_call (flatten hand) st) Hes Hf Hs) as [I1 I2].
      rewrite I1, I2. cbn [sendPayload_call sent].
      unfold ticks. cbn [filter List.length repeat].
      rewrite <- app_assoc. auto.
    + destruct (IH (step st (Results (Some (hand :: others)))) Hes eq_refl Hs)
        as [I1 I2].
      rewrite I1, I2. auto.
Qed.

(** X6. Once the response to the request for a hand has been read and
    handled without an exception (its confidence is a number, [null] or
    missing), and while every result still has that hand first, the page
    sends nothing more: there is one request sent, none in flight. When
    the handling throws (a confidence of another type), the vector last
    sent stays absent and every later tick sends the hand again. *)
Theorem held_pose_is_sent_once
    (hand : list Landmark) (others : list (list Landmark))
    (prediction : option Prediction) (confidence : option Confidence) (now : Z)
    (es : list Event) :
  Forall (holds hand) es ->
  let st := run initial
              ([Results (Some (hand :: others)); Tick;
                Settle 0 (Body prediction confidence now)] ++ es) in
  inflight (run initial [Results (Some (hand :: others)); Tick;
                         Settle 0 (Body prediction confidence now)]) = [] /\
  if toFixed_throws confidence
  then sent st = flatten hand
                 :: repeat (flatten hand) (ticks es) /\
       lastSentLandmarks st = None
  else sent st = [flatten hand] /\ inflight st = [] /\
       lastSentLandmarks st = Some (flatten hand).
Proof.
  intros H. cbv zeta. unfold run at 2 3 4 5 6. rewrite fold_left_app.
  set (st3 := fold_left step [Results (Some (hand :: others)); Tick;
                              Settle 0 (Body prediction confidence now)] initial).
  fold (run st3 es).
  pose (s0 := {| lastFrameLandmarks := Some (flatten hand);
                 lastSentLandmarks := None; lastAccepted := None;
                 lastAcceptTime := 0; typed := ""; logArea := LogEmpty;
                 inflight := []; sent := [flatten hand] |}).
  destruct (Scheduler.handlePrediction_frame prediction confidence now s0)
    as (F1 & F2 & F3 & F4).
  assert (E : st3 = sendPayload_resume (flatten hand)
                      (Body prediction confidence now) s0) by reflexivity.
  assert (I3 : inflight st3 = []).
  { rewrite E. unfold sendPayload_resume. cbv zeta.
    destruct (toFixed_throws confidence);
      cbn [set_logArea set_lastSentLandmarks inflight]; exact F3. }
  split; [exact I3|].
  unfold sendPayload_resume in E. cbv zeta in E.
  destruct (toFixed_throws confidence).
  - destruct (unsent_run hand es st3 H) as [U1 U2].
    + rewrite E. cbn [set_logArea lastFrameLandmarks]. exact F1.
    + rewrite E. cbn [set_logArea lastSentLandmarks]. exact F2.
    + rewrite U1, U2. split; [|reflexivity].
      rewrite E. cbn [set_logArea sent]. rewrite F4. reflexivity.
  - rewrite (held_run hand es st3 H).
    + rewrite I3, E. cbn [set_lastSentLandmarks sent lastSentLandmarks].
      rewrite F4. repeat split.
    + rewrite E. cbn [set_lastSentLandmarks lastFrameLandmarks]. exact F1.
    + rewrite E. reflexivity.
Qed.

Lemma held_pose_is_sent_once_witness :
  sent (run initial
          ([Results (Some [a_hand]); Tick;
            Settle 0 (Body (Some (Label "A")) (Some (Number c090)) 1000)]
           ++ [Tick; Results (Some [a_hand]); Tick]))
  = [flatten a_hand].
Proof.
  apply (held_pose_is_sent_once a_hand [] (Some (Label "A")) (Some (Number c090)) 1000
           [Tick; Results (Some [a_hand]); Tick]).
  constructor; [left; reflexivity|].
  constructor; [right; exists []; reflexivity|].
  constructor; [left; reflexivity|].
  constructor.
Defined.

(** X7. A request that ends in an error is not counted as sent: the vector
    last sent stays absent, and every later tick on the same frame sends
    the frame again, the earlier requests still unanswered or not. After a
    first request that failed, [n] ticks send [n] more requests. *)
Theorem failed_request_is_sent_again
    (hand : list Landmark) (others : list (list Landmark))
    (message : string) (n : nat) :
  let v := flatten hand in
  let failed o := run initial ([Results (Some (hand :: others)); Tick; Settle 0 o]
                               ++ repeat Tick n) in
  sent (failed (FetchRejected message)) = repeat v (S n) /\
  inflight (failed (FetchRejected message)) = repeat v n /\
  lastSentLandmarks (failed (FetchRejected message)) = None /\
  sent (failed (BodyRejected message)) = repeat v (S n) /\
  inflight (failed (BodyRejected message)) = repeat v n /\
  lastSentLandmarks (failed (BodyRejected message)) = None.
Proof.
  cbv zeta. unfold run. rewrite !fold_left_app.
  set (a := fold_left step [Results (Some (hand :: others)); Tick;
                            Settle 0 (FetchRejected message)] initial).
  set (b := fold_left step [Results (Some (hand :: others)); Tick;
                            Settle 0 (BodyRejected message)] initial).
  fold (run a (repeat Tick n)). fold (run b (repeat Tick n)).
  destruct (Scheduler.ticks_pile_up (flatten hand) n a eq_refl eq_refl)
    as (A1 & A2 & A3).
  destruct (Scheduler.ticks_pile_up (flatten hand) n b eq_refl eq_refl)
    as (B1 & B2 & B3).
  rewrite A1, A2, A3, B1, B2, B3. repeat split.
Qed.

(** *** Events that read no response body *)

Lemma quiet_step (st : State) (e : Event) :
  reads_body e = false ->
  typed (step st e) = typed st /\
  acceptance (step st e) = acceptance st /\
  lastSentLandmarks (step st e) = lastSentLandmarks st.
Proof.
  destruct e as [r| |i [m|m|p c now]]; try discriminate; intros _.
  - repeat split.
  - cbn [step]. unfold tick. destruct (lastFrameLandmarks st); [|repeat split].
    destruct (gt _ _); repeat split.
  - cbn [step]. destruct (nth_error (inflight st) i); repeat split.
  - cbn [step]. destruct (nth_error (inflight st) i); repeat split.
Qed.

(** X8. As long as no response body is read, whatever the results, the
    ticks and the requests that fail, the typed text, the last accepted
    label and its time, and the vector last sent stay as they are. *)
Theorem nothing_changes_without_a_response (st : State) (es : list Event) :
  forallb (fun e => negb (reads_body e)) es = true ->
  typed (run st es) = typed st /\
  acceptance (run st es) = acceptance st /\
  lastSentLandmarks (run st es) = lastSentLandmarks st.
Proof.
  revert st. induction es as [|e es IH]; intros st H; [repeat split|].
  cbn [forallb] in H. apply andb_true_iff in H. destruct H as [He Hes].
  apply negb_true_iff in He.
  destruct (quiet_step st e He) as (Q1 & Q2 & Q3).
  destruct (IH (step st e) Hes) as (I1 & I2 & I3).
  unfold run in *. cbn [fold_left]. rewrite I1, I2, I3. auto.
Qed.

Lemma nothing_changes_without_a_response_witness :
  typed (run (accepted "A" 0)
           [Results (Some [a_hand]); Tick; Settle 0 (FetchRejected "Failed to fetch"); Tick])
  = "A".
Proof.
  apply (nothing_changes_without_a_response (accepted "A" 0)
           [Results (Some [a_hand]); Tick;
            Settle 0 (FetchRejected "Failed to fetch"); Tick]).
  reflexivity.
Defined.

(** *** A sign that is held *)

(** X9. After a label is committed at [now1], the same label is a
    duplicate at any [now2] with [now2 - now1 <= 2000], and the duplicate
    changes neither the text nor the time of the last acceptance; so the
    same label at [now3] with [now3 - now1 > 2000] is committed again,
    however close [now3] is to [now2]: a held sign is typed once per window
    counted from the last commit. *)
Theorem held_sign_is_typed_once_per_window
    (label : string) (c1 c2 c3 : num) (now1 now2 now3 : Z) (st : State) :
  fst (handlePrediction (Some (Label label)) (Some (Number c1)) now1 st)
  = Commit (Label label) ->
  ge c2 CONF_THRESHOLD = true ->
  ge c3 CONF_THRESHOLD = true ->
  now2 - now1 <= DEBOUNCE_MS ->
  DEBOUNCE_MS < now3 - now1 ->
  let st1 := snd (handlePrediction (Some (Label label)) (Some (Number c1)) now1 st) in
  let st2 := snd (handlePrediction (Some (Label label)) (Some (Number c2)) now2 st1) in
  let st3 := snd (handlePrediction (Some (Label label)) (Some (Number c3)) now3 st2) in
  typed st1 = appendLetter (Label label) (typed st) /\
  fst (handlePrediction (Some (Label label)) (Some (Number c2)) now2 st1)
  = Reject Duplicate /\
  typed st2 = typed st1 /\
  acceptance st2 = (Some (Label label), now1) /\
  fst (handlePrediction (Some (Label label)) (Some (Number c3)) now3 st2)
  = Commit (Label label) /\
  typed st3 = appendLetter (Label label) (typed st1) /\
  acceptance st3 = (Some (Label label), now3).
Proof.
  intros H1 H2 H3 Hd Hw. cbv zeta.
  unfold handlePrediction in *. unfold confident in *. cbn [to_number] in *.
  rewrite H2, H3.
  destruct (ge c1 CONF_THRESHOLD); [|discriminate].
  destruct (truthy (Some (Label label))) as [p|] eqn:Et; [|discriminate].
  assert (p = Label label).
  { unfold truthy in Et. destruct (String.eqb label ""); [discriminate|].
    injection Et as <-. reflexivity. }
  subst p.
  destruct (differs (Label label) (lastAccepted st)
            || (DEBOUNCE_MS <? now1 - lastAcceptTime st));
    [|discriminate].
  cbn [fst snd lastAccepted lastAcceptTime typed differs strict_equal].
  rewrite String.eqb_refl. cbn [negb orb].
  assert (E2 : (DEBOUNCE_MS <? now2 - now1) = false) by (apply Z.ltb_ge; exact Hd).
  assert (E3 : (DEBOUNCE_MS <? now3 - now1) = true) by (apply Z.ltb_lt; exact Hw).
  rewrite E2.
  cbn [fst snd lastAccepted lastAcceptTime typed differs strict_equal acceptance].
  rewrite String.eqb_refl. cbn [negb orb]. rewrite E3.
  cbn [fst snd lastAccepted lastAcceptTime typed acceptance]. repeat split.
Qed.

Lemma held_sign_is_typed_once_per_window_witness :
  let st1 := snd (handlePrediction (Some (Label "A")) (Some (Number c090)) 10000 initial) in
  let st2 := snd (handlePrediction (Some (Label "A")) (Some (Number c090)) 11900 st1) in
  typed st2 = "A" /\
  typed (snd (handlePrediction (Some (Label "A")) (Some (Number c090)) 12100 st2)) = "AA".
Proof.
  pose proof (held_sign_is_typed_once_per_window "A" c090 c090 c090
                10000 11900 12100 initial eq_refl eq_refl eq_refl) as H.
  cbv zeta in H. destruct H as (H1 & _ & H2 & _ & _ & H3 & _).
  - unfold DEBOUNCE_MS. lia.
  - unfold DEBOUNCE_MS. lia.
  - cbv zeta. split.
    + rewrite H2, H1. reflexivity.
    + rewrite H3, H1. reflexivity.
Defined.

(** *** Deleting *)

Lemma substring_length (s : string) : forall k,
  String.length (String.substring 0 k s) = Nat.min k (String.length s).
Proof.
  induction s as [|a s IH]; intros [|k]; cbn [String.substring String.length Nat.min];
    try reflexivity.
  rewrite IH. reflexivity.
Qed.

(** X10. [del] undoes the label typed last when that label is a letter or
    [space]: the text is as before. On any text, [del] shortens the text by
    one character, and by none when the text is empty. *)
Theorem del_undoes_last_letter (text : string) :
  Forall (fun label =>
            appendLetter (Label "del") (appendLetter (Label label) text) = text)
         (letters ++ ["space"]) /\
  String.length (appendLetter (Label "del") text) = Nat.pred (String.length text).
Proof.
  split.
  - unfold letters. cbn [app].
    repeat (constructor;
            [unfold appendLetter, slice_0_m1;
             cbn [String.eqb Ascii.eqb Bool.eqb];
             rewrite TextBuffer.length_snoc; simpl Nat.sub; rewrite Nat.sub_0_r;
             apply TextBuffer.substring_prefix|]).
    constructor.
  - unfold appendLetter, slice_0_m1. cbn [String.eqb Ascii.eqb Bool.eqb].
    rewrite substring_length. lia.
Qed.

End Session.

(** ** The earlier page: every interval sends *)

Module PrototypeFacts.

Import Client Prototype.

Lemma intervals_send (flat : list num) (times : list Z) : forall pg,
  latestLandmarks pg = Some flat ->
  console (run pg (map Interval times))
  = (console pg ++ map (fun t => {| landmarks := flat; ts := t |}) times)%list /\
  latestLandmarks (run pg (map Interval times)) = Some flat /\
  floats_logged (run pg (map Interval times))
  = match times with [] => floats_logged pg | _ :: _ => Some (List.length flat) end.
Proof.
  induction times as [|t times IH]; intros pg H.
  - cbn [map run fold_left]. rewrite app_nil_r. auto.
  - cbn [map]. unfold run. cbn [fold_left call]. unfold interval. rewrite H.
    fold (run (sendPayload flat t pg) (map Interval times)).
    destruct (IH (sendPayload flat t pg) H) as (I1 & I2 & I3).
    rewrite I1, I2, I3. cbn [sendPayload console floats_logged].
    rewrite <- app_assoc. repeat split. destruct times; reflexivity.
Qed.

Lemma intervals_idle (times : list Z) : forall pg,
  latestLandmarks pg = None -> run pg (map Interval times) = pg.
Proof.
  induction times as [|t times IH]; intros pg H; [reflexivity|].
  cbn [map]. unfold run. cbn [fold_left call]. unfold interval. rewrite H.
  apply IH. exact H.
Qed.

(** X11. The earlier page has no distance test: while a hand is detected,
    every interval logs one payload with the flattened hand and the time of
    the interval, in order, and the text of the log names three floats per
    landmark; while no hand is detected, intervals do nothing. *)
Theorem prototype_sends_at_every_interval
    (hand : list Landmark) (others : list (list Landmark))
    (times : list Z) (pg : Page) :
  let seen := onResults (Some (hand :: others)) pg in
  console (run seen (map Interval times))
  = (console pg
     ++ map (fun t => {| landmarks := flattenLandmarks hand; ts := t |}) times)%list /\
  floats_logged (run seen (map Interval times))
  = match times with
    | [] => floats_logged pg
    | _ :: _ => Some (3 * List.length hand)%nat
    end /\
  run (onResults None pg) (map Interval times) = onResults None pg /\
  run (onResults (Some []) pg) (map Interval times) = onResults (Some []) pg.
Proof.
  cbv zeta.
  destruct (intervals_send (flattenLandmarks hand) times
              (onResults (Some (hand :: others)) pg) eq_refl) as (I1 & _ & I3).
  repeat split.
  - exact I1.
  - rewrite I3. destruct times; [reflexivity|].
    f_equal. apply (Session.flatten_length hand).
  - apply intervals_idle. reflexivity.
  - apply intervals_idle. reflexivity.
Qed.

End PrototypeFacts.

(** ** More on [one_image_to_vector] *)

Module Landmarks.

Import IEEE IEEEFacts Notebook NormalizerSpec Normalizer Poses.

(** *** The messages *)

Lemma message_reason (img : Image) (reason : string) :
  one_image_to_vector img = Message reason ->
  reason = "class_nothing" \/ reason = "corrupt_image" \/ reason = "no_hand".
Proof.
  unfold one_image_to_vector.
  destruct (String.eqb (parent_name img) "nothing");
    [intros H; injection H as <-; auto|].
  destruct (negb (readable img)); [intros H; injection H as <-; auto|].
  destruct (multi_hand_landmarks img) as [|hand others];
    [intros H; injection H as <-; auto|].
  destruct (to_array hand) as [|wrist rows]; [discriminate|].
  destruct (rows_at _ tip_ids); discriminate.
Qed.

(** *** The number of landmarks *)

Lemma rows_at_short (lm : list (list f32)) :
  (List.length lm <= 20)%nat -> rows_at lm tip_ids = None.
Proof.
  intros H. assert (E : nth_error lm 20 = None) by (apply nth_error_None; lia).
  unfold tip_ids. cbn [rows_at]. rewrite E.
  destruct (nth_error lm 4), (nth_error lm 8), (nth_error lm 12),
    (nth_error lm 16); reflexivity.
Qed.

Lemma length_normalised (lm : list (list f32)) (wrist : list f32) :
  List.length (normalised lm wrist) = List.length lm.
Proof. unfold normalised, div_all, sub_row. rewrite !length_map. reflexivity. Qed.

Lemma flat_map_coords_length (pts : list Landmark) :
  List.length (flat_map coords pts) = (3 * List.length pts)%nat.
Proof.
  induction pts as [|p pts IH]; [reflexivity|].
  cbn [flat_map List.length app coords]. rewrite IH. lia.
Qed.

Lemma vector_of_hand (img : Image) (hand : list Landmark)
    (others : list (list Landmark)) :
  usable img = true ->
  multi_hand_landmarks img = hand :: others ->
  (21 <= List.length hand)%nat ->
  one_image_to_vector img = Vector (FeatureNormalizer true hand) /\
  List.length (FeatureNormalizer true hand)
  = (3 * (List.length hand - 1) + 5)%nat.
Proof.
  intros Hu Hh El. unfold usable in Hu. apply andb_true_iff in Hu.
  destruct Hu as [Hn Hr]. apply negb_true_iff in Hn.
  unfold one_image_to_vector. rewrite Hn, Hr, Hh. cbn [negb].
  destruct hand as [|w t]; [cbn [List.length] in El; lia|].
  rewrite to_array_coords. cbn [map].
  change (coords w :: map coords t) with (map coords (w :: t)).
  rewrite normalised_coords, vec60_of_coords, rows_at_coords.
  - rewrite map_map. split.
    + unfold FeatureNormalizer, FeatureNormalizer_with, normalise, fingertips, tip_ids.
      do 2 f_equal. apply map_ext. intros i. apply norm_coords.
    + unfold FeatureNormalizer, FeatureNormalizer_with.
      rewrite length_app, flat_map_coords_length, length_map.
      assert (L : List.length (tl (normalise_with or_one (w :: t)))
                  = (List.length (w :: t) - 1)%nat).
      { rewrite <- (length_normalise_with or_one (w :: t)).
        destruct (normalise_with or_one (w :: t)); simpl; lia. }
      rewrite L. reflexivity.
  - unfold normalise. rewrite length_normalise_with.
    unfold tip_ids. cbn [List.length] in *.
    repeat (constructor; [lia|]). constructor.
Qed.

Lemma short_hand_raises (img : Image) (hand : list Landmark)
    (others : list (list Landmark)) :
  usable img = true ->
  multi_hand_landmarks img = hand :: others ->
  (List.length hand < 21)%nat ->
  one_image_to_vector img = IndexError.
Proof.
  intros Hu Hh El. unfold usable in Hu. apply andb_true_iff in Hu.
  destruct Hu as [Hn Hr]. apply negb_true_iff in Hn.
  unfold one_image_to_vector. rewrite Hn, Hr, Hh. cbn [negb].
  destruct hand as [|w t]; [reflexivity|].
  rewrite to_array_coords. cbn [map].
  rewrite rows_at_short; [reflexivity|].
  rewrite length_normalised. cbn [List.length]. rewrite length_map.
  cbn [List.length] in El. lia.
Qed.

(** X12. The function needs the landmark of index 20. In a usable image,
    a hand with fewer than 21 landmarks, the empty hand among them, raises
    [IndexError]; a hand with [n >= 21] landmarks gives a vector of
    [3 (n - 1) + 5] elements, which is 65 only for [n = 21]. *)
Theorem landmarks_needed (img : Image) (hand : list Landmark)
    (others : list (list Landmark)) :
  usable img = true ->
  multi_hand_landmarks img = hand :: others ->
  if Nat.ltb (List.length hand) 21
  then one_image_to_vector img = IndexError
  else exists v, one_image_to_vector img = Vector v /\
       List.length v = (3 * (List.length hand - 1) + 5)%nat.
Proof.
  intros Hu Hh. destruct (Nat.ltb (List.length hand) 21) eqn:El.
  - apply Nat.ltb_lt in El. apply (short_hand_raises img hand others); assumption.
  - apply Nat.ltb_ge in El.
    destruct (vector_of_hand img hand others Hu Hh El) as [E L].
    exists (FeatureNormalizer true hand). split; assumption.
Qed.

Lemma landmarks_needed_witness :
  one_image_to_vector
    {| parent_name := "A"; readable := true;
       multi_hand_landmarks := [repeat a_point 20] |} = IndexError /\
  exists v,
    one_image_to_vector
      {| parent_name := "A"; readable := true;
         multi_hand_landmarks := [repeat a_point 22] |} = Vector v /\
    List.length v = 68%nat.
Proof.
  split.
  - apply (landmarks_needed
             {| parent_name := "A"; readable := true;
                multi_hand_landmarks := [repeat a_point 20] |}
             (repeat a_point 20) []); reflexivity.
  - apply (landmarks_needed
             {| parent_name := "A"; readable := true;
                multi_hand_landmarks := [repeat a_point 22] |}
             (repeat a_point 22) []); reflexivity.
Defined.

(** *** One NaN spoils the vector *)

Lemma is_nan_eq32 (a : f32) : is_nan a = true -> a = NaN.
Proof. destruct a; try discriminate; reflexivity. Qed.

Lemma fold_maximum_nan (l : list f32) : fold_left maximum l NaN = NaN.
Proof. induction l as [|a l IH]; [reflexivity | exact IH]. Qed.

Lemma fold_minimum_nan (l : list f32) : fold_left minimum l NaN = NaN.
Proof. induction l as [|a l IH]; [reflexivity | exact IH]. Qed.

Lemma maximum_nan_r (a : f32) : maximum a NaN = NaN.
Proof. destruct a; reflexivity. Qed.

Lemma minimum_nan_r (a : f32) : minimum a NaN = NaN.
Proof. destruct a; reflexivity. Qed.

Lemma fold_maximum_in_nan (l : list f32) : forall h,
  In NaN l -> fold_left maximum l h = NaN.
Proof.
  induction l as [|a l IH]; intros h H; [destruct H|].
  destruct H as [E|H]; cbn [fold_left].
  - subst a. rewrite maximum_nan_r. apply fold_maximum_nan.
  - apply IH. exact H.
Qed.

Lemma fold_minimum_in_nan (l : list f32) : forall h,
  In NaN l -> fold_left minimum l h = NaN.
Proof.
  induction l as [|a l IH]; intros h H; [destruct H|].
  destruct H as [E|H]; cbn [fold_left].
  - subst a. rewrite minimum_nan_r. apply fold_minimum_nan.
  - apply IH. exact H.
Qed.

Lemma np_max_nan (l : list f32) : In NaN l -> np_max l = NaN.
Proof.
  unfold np_max, reduce. destruct l as [|h t]; intros H; [destruct H|].
  destruct H as [E|H].
  - subst h. apply fold_maximum_nan.
  - apply fold_maximum_in_nan. exact H.
Qed.

Lemma np_min_nan (l : list f32) : In NaN l -> np_min l = NaN.
Proof.
  unfold np_min, reduce. destruct l as [|h t]; intros H; [destruct H|].
  destruct H as [E|H].
  - subst h. apply fold_minimum_nan.
  - apply fold_minimum_in_nan. exact H.
Qed.

Lemma range_nan (l : list f32) : In NaN l -> range l = NaN.
Proof.
  intros H. unfold range. rewrite (np_max_nan l H), (np_min_nan l H). reflexivity.
Qed.

Lemma sub_nan_l (b : f32) : sub NaN b = NaN.
Proof. reflexivity. Qed.

Lemma div_nan_r (a : f32) : div a NaN = NaN.
Proof. destruct a; reflexivity. Qed.

(** A NaN coordinate of a point is a NaN in the column of its axis after
    centring, whatever the wrist. *)
Lemma centred_has_nan (w : Landmark) (pose : list Landmark) :
  has_nan pose = true ->
  In NaN (map x (map (centre w) pose)) \/
  In NaN (map y (map (centre w) pose)) \/
  In NaN (map z (map (centre w) pose)).
Proof.
  induction pose as [|p pose IH]; [discriminate|].
  cbn [has_nan existsb map centre x y z]. intros H.
  apply orb_true_iff in H. destruct H as [H|H].
  - apply orb_true_iff in H. destruct H as [H|H];
      [apply orb_true_iff in H; destruct H as [H|H]|];
      apply is_nan_eq32 in H; rewrite H, sub_nan_l.
    + left. left. reflexivity.
    + right. left. left. reflexivity.
    + right. right. left. reflexivity.
  - destruct (IH H) as [I|[I|I]].
    + left. right. exact I.
    + right. left. right. exact I.
    + right. right. right. exact I.
Qed.

Lemma max_range_nan (pts : list Landmark) :
  In NaN (map x pts) \/ In NaN (map y pts) \/ In NaN (map z pts) ->
  max_range pts = NaN.
Proof.
  intros H. unfold max_range. apply np_max_nan.
  destruct H as [H|[H|H]]; rewrite (range_nan _ H).
  - left. reflexivity.
  - right. left. reflexivity.
  - right. right. left. reflexivity.
Qed.

Lemma normalise_nan (pose : list Landmark) :
  has_nan pose = true ->
  normalise pose = repeat nan_point (List.length pose).
Proof.
  intros H. unfold normalise, normalise_with.
  rewrite (max_range_nan _ (centred_has_nan (nth 0 pose origin) pose H)).
  change (or_one NaN) with NaN. rewrite map_map.
  clear H. generalize (nth 0 pose origin). intros w.
  induction pose as [|p pose IH]; [reflexivity|].
  cbn [map List.length repeat]. rewrite IH. f_equal.
  unfold scale_by. rewrite !div_nan_r. reflexivity.
Qed.

(** X13. One NaN coordinate anywhere in a pose of 21 landmarks spoils the
    whole result: the maximum range is NaN, NaN is truthy so it is kept as
    the scale, and the function returns the vector of 65 NaN. *)
Theorem nan_spoils_the_vector (img : Image) (hand : list Landmark)
    (others : list (list Landmark)) :
  usable img = true ->
  multi_hand_landmarks img = hand :: others ->
  List.length hand = 21%nat ->
  has_nan hand = true ->
  max_range (map (centre (nth 0 hand origin)) hand) = NaN /\
  one_image_to_vector img = Vector (repeat NaN 65).
Proof.
  intros Hu Hh Hlen Hn. split.
  - apply max_range_nan. apply centred_has_nan. exact Hn.
  - destruct hand as [|w t]; [discriminate|].
    rewrite (one_image_to_vector_hand img w t others Hu Hh Hlen).
    unfold FeatureNormalizer, FeatureNormalizer_with.
    change (normalise_with or_one (w :: t)) with (normalise (w :: t)).
    rewrite (normalise_nan (w :: t) Hn), Hlen. reflexivity.
Qed.

Lemma nan_spoils_the_vector_witness :
  one_image_to_vector a_nan_image = Vector (repeat NaN 65).
Proof.
  apply (nan_spoils_the_vector a_nan_image a_nan_pose []); reflexivity.
Defined.

(** *** The row that is dropped *)

Lemma div_zero_or_one (r : f32) :
  let q := div zero (or_one r) in
  is_nan q = is_nan r /\ is_zero q = negb (is_nan r).
Proof. destruct r as [[|]|[|]| |[|] m e]; split; reflexivity. Qed.

(** X14. The row that [lm[1:]] drops carries nothing: for a wrist with
    finite coordinates, row 0 of the normalised array is three times the
    same number, [0 / scale], which is a zero, or NaN when the scale is
    NaN. *)
Theorem wrist_row_is_zero (w : Landmark) (t : list Landmark) :
  is_finite (x w) = true -> is_finite (y w) = true -> is_finite (z w) = true ->
  let lm := to_array (w :: t) in
  let scale := or_one (peak_to_peak (sub_row lm (coords w))) in
  hd [] (normalised lm (coords w)) = repeat (div zero scale) 3 /\
  is_nan (div zero scale) = is_nan (peak_to_peak (sub_row lm (coords w))) /\
  is_zero (div zero scale) = negb (is_nan (peak_to_peak (sub_row lm (coords w)))).
Proof.
  intros Hx Hy Hz. cbv zeta. split; [|apply div_zero_or_one].
  unfold normalised.
  set (s := or_one (peak_to_peak (sub_row (to_array (w :: t)) (coords w)))).
  unfold to_array, sub_row, div_all, coords. cbn [map combine fst snd hd].
  unfold sub. rewrite !sub_diag_finite by assumption. reflexivity.
Qed.

Lemma wrist_row_is_zero_witness :
  hd [] (normalised (to_array a_pose) (coords (nth 0 a_pose origin)))
  = [zero; zero; zero].
Proof.
  pose proof (wrist_row_is_zero (nth 0 a_pose origin) (tl a_pose)
                eq_refl eq_refl eq_refl) as H.
  cbv zeta in H. destruct H as [H _]. exact H.
Defined.

End Landmarks.

(** ** InvalidPose: a pose that is absent, or not finite *)

Module InvalidPose.

Import IEEE Notebook NormalizerSpec Normalizer Landmarks.

(** C5, as the claim has it, fails in its three parts. Nothing tests the
    coordinates, and a pose with a NaN coordinate gives a vector, of 65
    NaN. On the page an absent pose replaces the pending sample by the
    absent one. A pose with a NaN coordinate becomes the pending sample
    and, nothing having been sent before, the next tick sends it. *)
Lemma invalid_pose_is_discarded_counterexample :
  ~ rejects_non_finite /\ ~ absent_leaves_pending /\ ~ non_finite_not_forwarded.
Proof.
  split; [|split].
  - intros H.
    apply (H a_nan_image a_nan_pose [] eq_refl eq_refl (repeat NaN 65)).
    vm_compute. reflexivity.
  - intros H. specialize (H a_pending_state). discriminate H.
  - intros H. destruct (H [a_nan_landmark] [] Client.initial eq_refl) as [H1 _].
    discriminate H1.
Qed.

(** C5, amended. When no hand is detected, [one_image_to_vector] returns a
    message and no vector; on the page, [onResults] then sets the latest
    frame to absent, replacing the frame that was there, and a tick on an
    absent frame returns at once, with no distance computed and no request
    sent. The coordinates are tested nowhere. For a hand of 21 landmarks
    in a usable image [one_image_to_vector] returns a vector of 65
    elements, whatever the coordinates are. The page does not normalise:
    the flattened landmarks of a detected hand, as they come, are stored as
    the latest frame, whatever the coordinates are, and the next tick
    compares them with the vector last sent and sends them when the
    distance is above the threshold, as it is when nothing was sent
    before. *)
Theorem absent_pose_is_dropped (img : Image) (st : Client.State)
    (hand : list Client.Landmark) (others : list (list Client.Landmark)) :
  multi_hand_landmarks img = [] ->
  one_image_to_vector img
  = Message (if String.eqb (parent_name img) "nothing" then "class_nothing"
             else if negb (readable img) then "corrupt_image" else "no_hand") /\
  Client.lastFrameLandmarks (Client.onResults None st) = None /\
  Client.lastFrameLandmarks (Client.onResults (Some []) st) = None /\
  Client.tick (Client.onResults None st) = Client.onResults None st /\
  Client.tick (Client.onResults (Some []) st) = Client.onResults (Some []) st /\
  Client.lastFrameLandmarks (Client.onResults (Some (hand :: others)) st)
  = Some (Client.flatten hand) /\
  Client.tick (Client.onResults (Some (hand :: others)) st)
  = (if Client.shouldSubmit (Client.flatten hand) (Client.lastSentLandmarks st)
     then Client.sendPayload_call (Client.flatten hand)
            (Client.onResults (Some (hand :: others)) st)
     else Client.onResults (Some (hand :: others)) st) /\
  (Client.lastSentLandmarks st = None ->
   Client.sent (Client.tick (Client.onResults (Some (hand :: others)) st))
   = (Client.sent st ++ [Client.flatten hand])%list) /\
  (forall (img' : Image) (pose : list Landmark) (rest : list (list Landmark)),
     usable img' = true ->
     multi_hand_landmarks img' = pose :: rest ->
     List.length pose = 21%nat ->
     exists v, one_image_to_vector img' = Vector v /\ List.length v = 65%nat).
Proof.
  intros Hh. split.
  { unfold one_image_to_vector. rewrite Hh.
    destruct (String.eqb (parent_name img) "nothing"); [reflexivity|].
    destruct (negb (readable img)); reflexivity. }
  destruct (Scheduler.onResults_absent st) as (A & B & C & D).
  do 4 (split; [assumption|]).
  split; [reflexivity|].
  split; [reflexivity|].
  split.
  { intros E. unfold Client.tick. cbn [Client.onResults Client.lastFrameLandmarks
      Client.lastSentLandmarks]. rewrite E. reflexivity. }
  intros img' pose rest Hu Hm Hl.
  destruct (vector_of_hand img' pose rest Hu Hm) as [E L]; [lia|].
  exists (FeatureNormalizer true pose). split; [exact E|].
  rewrite L, Hl. reflexivity.
Qed.

Lemma absent_pose_is_dropped_witness :
  one_image_to_vector
    {| parent_name := "A"; readable := true; multi_hand_landmarks := [] |}
  = Message "no_hand" /\
  Client.sent (Client.tick (Client.onResults (Some [[a_nan_landmark]]) Client.initial))
  = [Client.flatten [a_nan_landmark]] /\
  exists v, one_image_to_vector a_nan_image = Vector v /\ List.length v = 65%nat.
Proof.
  pose proof (absent_pose_is_dropped
           {| parent_name := "A"; readable := true; multi_hand_landmarks := [] |}
           Client.initial [a_nan_landmark] [] eq_refl)
    as (H1 & _ & _ & _ & _ & _ & _ & H8 & H9).
  split; [exact H1|]. split.
  - apply H8. reflexivity.
  - apply (H9 a_nan_image a_nan_pose []); reflexivity.
Defined.

End InvalidPose.

(** ** The batch cell *)

Module BatchFacts.

Import Notebook NormalizerSpec Batch.

Lemma for_loop_counts (batch : list Image) : forall (vs : list (list f32)) (a b c : nat),
  for_loop batch
    {| vecs := vs;
       fail_reasons := [("class_nothing", a); ("no_hand", b); ("corrupt_image", c)] |}
  = if existsb raises batch then inl IndexErrorRaised
    else inr {| vecs := (vs ++ vectors batch)%list;
                fail_reasons :=
                  [("class_nothing",
                    (a + List.length (with_message "class_nothing" batch))%nat);
                   ("no_hand",
                    (b + List.length (with_message "no_hand" batch))%nat);
                   ("corrupt_image",
                    (c + List.length (with_message "corrupt_image" batch))%nat)] |}.
Proof.
  induction batch as [|p rest IH]; intros vs a b c.
  - cbn [for_loop existsb vectors flat_map with_message filter List.length].
    rewrite app_nil_r, !Nat.add_0_r. reflexivity.
  - cbn [for_loop existsb vectors flat_map with_message filter]. unfold raises at 1.
    destruct (one_image_to_vector p) as [v|r|] eqn:E.
    + cbn [orb vecs fail_reasons]. rewrite IH.
      fold (vectors rest). fold (with_message "class_nothing" rest).
      fold (with_message "no_hand" rest). fold (with_message "corrupt_image" rest).
      rewrite <- app_assoc. reflexivity.
    + cbn [orb]. fold (vectors rest). fold (with_message "class_nothing" rest).
      fold (with_message "no_hand" rest). fold (with_message "corrupt_image" rest).
      destruct (Landmarks.message_reason p r E) as [ -> | [ -> | -> ] ];
        cbn [vecs fail_reasons increment String.eqb Ascii.eqb Bool.eqb option_map];
        rewrite IH; cbn [app List.length]; rewrite ?Nat.add_succ_r; reflexivity.
    + reflexivity.
Qed.

Lemma partition_length (batch : list Image) :
  (List.length (vectors batch)
   + List.length (with_message "class_nothing" batch)
   + List.length (with_message "no_hand" batch)
   + List.length (with_message "corrupt_image" batch)
   + List.length (filter raises batch))%nat
  = List.length batch.
Proof.
  induction batch as [|p rest IH]; [reflexivity|].
  cbn [vectors flat_map with_message filter]. unfold raises at 1.
  fold (vectors rest). fold (with_message "class_nothing" rest).
  fold (with_message "no_hand" rest). fold (with_message "corrupt_image" rest).
  destruct (one_image_to_vector p) as [v|r|] eqn:E.
  - cbn [app List.length]. rewrite <- IH. reflexivity.
  - destruct (Landmarks.message_reason p r E) as [ -> | [ -> | -> ] ];
      cbn [String.eqb Ascii.eqb Bool.eqb List.length]; rewrite <- IH;
      rewrite ?Nat.add_succ_r; reflexivity.
  - cbn [List.length]. rewrite <- IH, ?Nat.add_succ_r. reflexivity.
Qed.

(** X15. The loop of the cell never raises [KeyError]: every message is a
    key of [fail_reasons]. It stops with [IndexError] when the function
    raises on an image of the batch; otherwise [vecs] holds the vectors in
    the order of the batch and each count is the number of images with that
    message, so that the vectors, the three counts and the images that
    raise add up to the size of the batch. *)
Theorem batch_loop_tally (batch : list Image) :
  for_loop batch tally_0
  = (if existsb raises batch then inl IndexErrorRaised
     else inr {| vecs := vectors batch;
                 fail_reasons :=
                   [("class_nothing", List.length (with_message "class_nothing" batch));
                    ("no_hand", List.length (with_message "no_hand" batch));
                    ("corrupt_image", List.length (with_message "corrupt_image" batch))] |}) /\
  (List.length (vectors batch)
   + List.length (with_message "class_nothing" batch)
   + List.length (with_message "no_hand" batch)
   + List.length (with_message "corrupt_image" batch)
   + List.length (filter raises batch))%nat
  = List.length batch.
Proof.
  split; [|apply partition_length].
  unfold tally_0, fail_reasons_0. rewrite for_loop_counts. reflexivity.
Qed.

(** *** The shape of the matrix *)

Lemma full_hand_result (p : Image) :
  full_hand p = true ->
  match one_image_to_vector p with
  | Vector v => usable p && has_hand p = true /\ List.length v = 65%nat
  | Message _ => usable p && has_hand p = false
  | IndexError => False
  end.
Proof.
  intros Hf. unfold full_hand, has_hand in *.
  destruct (usable p) eqn:Hu.
  - destruct (multi_hand_landmarks p) as [|hand others] eqn:Hh.
    + pose proof (Landmarks.message_reason p) as _.
      unfold one_image_to_vector. unfold usable in Hu.
      apply andb_true_iff in Hu. destruct Hu as [Hn Hr].
      apply negb_true_iff in Hn. rewrite Hn, Hr, Hh. reflexivity.
    + apply Nat.eqb_eq in Hf.
      destruct (Landmarks.vector_of_hand p hand others Hu Hh) as [E L]; [lia|].
      rewrite E. split; [reflexivity|]. rewrite L, Hf. reflexivity.
  - unfold one_image_to_vector. unfold usable in Hu.
    destruct (String.eqb (parent_name p) "nothing"); [reflexivity|].
    cbn [negb andb] in Hu. rewrite Hu. reflexivity.
Qed.

Lemma full_hands_vectors (batch : list Image) :
  forallb full_hand batch = true ->
  existsb raises batch = false /\
  Forall (fun v => List.length v = 65%nat) (vectors batch) /\
  List.length (vectors batch)
  = List.length (filter (fun p => usable p && has_hand p) batch).
Proof.
  induction batch as [|p rest IH]; intros H.
  - repeat split. constructor.
  - cbn [forallb] in H. apply andb_true_iff in H. destruct H as [Hp Hr].
    destruct (IH Hr) as (I1 & I2 & I3).
    pose proof (full_hand_result p Hp) as R.
    cbn [existsb vectors flat_map filter]. unfold raises at 1.
    fold (vectors rest).
    destruct (one_image_to_vector p) as [v|r|].
    + destruct R as [R1 R2]. rewrite R1. cbn [orb app List.length].
      repeat split; [exact I1 | constructor; assumption | rewrite I3; reflexivity].
    + rewrite R. cbn [orb app]. repeat split; assumption.
    + destruct R.
Qed.

Lemma np_stack_same_length (rows : list (list f32)) (n : nat) :
  Forall (fun v => List.length v = n) rows ->
  np_stack rows = match rows with [] => inl ValueError | _ :: _ => inr rows end /\
  (rows <> [] -> shape rows = (List.length rows, n)).
Proof.
  intros H. destruct rows as [|r rs]; [split; [reflexivity | congruence]|].
  inversion H as [|r' rs' Hr Hrs]; subst.
  split.
  - unfold np_stack.
    replace (forallb _ rs) with true; [reflexivity|].
    symmetry. apply forallb_forall. intros w Hw. apply Nat.eqb_eq.
    rewrite Forall_forall in Hrs. apply Hrs. exact Hw.
  - intros _. reflexivity.
Qed.

(** X16. When every detected hand of the batch has 21 landmarks, the loop
    ends without an exception and the matrix printed has one row of 65
    columns per image that is usable and has a hand; when there is no such
    image, [np.stack] raises [ValueError] on the empty list. *)
Theorem batch_matrix_shape (batch : list Image) :
  forallb full_hand batch = true ->
  let rows := List.length (filter (fun p => usable p && has_hand p) batch) in
  match cell batch with
  | inr (t, s) => vecs t = vectors batch /\ s = (rows, 65%nat) /\ rows <> 0%nat
  | inl e => e = ValueError /\ rows = 0%nat
  end.
Proof.
  intros H. cbv zeta. destruct (full_hands_vectors batch H) as (R & V & L).
  unfold cell, tally_0, fail_reasons_0.
  rewrite for_loop_counts, R. cbn [vecs app].
  destruct (np_stack_same_length (vectors batch) 65 V) as [S Sh].
  rewrite S, <- L.
  destruct (vectors batch) as [|v vs] eqn:Ev.
  - split; reflexivity.
  - repeat split.
    + apply Sh. discriminate.
    + discriminate.
Qed.

Lemma batch_matrix_shape_witness :
  match cell [an_image; degenerate;
              {| parent_name := "nothing"; readable := true;
                 multi_hand_landmarks := [] |}] with
  | inr (t, s) => s = (2%nat, 65%nat)
  | inl e => e = ValueError
  end.
Proof.
  pose proof (batch_matrix_shape
                [an_image; degenerate;
                 {| parent_name := "nothing"; readable := true;
                    multi_hand_landmarks := [] |}] eq_refl) as H.
  cbv zeta in H.
  destruct (cell _) as [e|[t s]].
  - apply H.
  - destruct H as (_ & H & _). exact H.
Defined.

End BatchFacts.
